(** * The OEIS benchmark pipeline (src/utils.py, src/process.py)

    A shallow embedding of the batch pipeline that turns the OEIS dataset into
    a next-term benchmark: column selection, truncation, minimum-length
    filter, split into first terms and next term, deduplication on the first
    terms, derivation of the [is_easy] flag, and the two guarded boundaries
    (loading the dataset, writing the Parquet file).

    - Python values are a small sum type, rows are dictionaries
      ([gmap string value]), integers are [Z]; a slice with a negative bound
      counts from the end, as in Python.
    - Exceptions are an error monad ([result]); the calls to the dataset
      source and to the writer are recorded in a trace.
    - The set captured by the deduplication closure is threaded through the
      rows as a [gset].
    - The operations of the [datasets] library that the program calls
      ([map], [filter], [select_columns], [remove_columns]) are external to
      the repository; [Module HF] models them on ordered rows with a schema.
    - Logging and printing do not change any result and are left out.

    The definitions come first, the lemmas after them; the theorems that
    state the properties of the specification are marked C1 to C10. *)

From Stdlib Require Import ZArith String Ascii.
From stdpp Require Import gmap strings list fin_maps.

Local Open Scope Z_scope.

(* ===================================================================== *)
(** ** Exceptions and the error monad *)
(* ===================================================================== *)

(** The exception classes that the modelled code can raise.  All of them
    derive from Python's [Exception]. *)
Inductive exn :=
  | KeyError | IndexError | TypeError | ValueError | ArrowInvalid | OSError.

Inductive result (A : Type) :=
  | Ok (a : A)
  | Raise (e : exn).
Arguments Ok {A} a.
Arguments Raise {A} e.

#[global] Instance result_ret : MRet result := λ A a, Ok a.
#[global] Instance result_bind : MBind result := λ A B f m,
  match m with Ok a => f a | Raise e => Raise e end.
#[global] Instance result_fmap : FMap result := λ A B f m,
  match m with Ok a => Ok (f a) | Raise e => Raise e end.

(** [d[k]] on a dictionary. *)
Definition getitem {V} (d : gmap string V) (k : string) : result V :=
  match d !! k with Some v => Ok v | None => Raise KeyError end.

(** Monadic map over a list, left to right (a list comprehension or a
    [for] loop whose body may raise). *)
Fixpoint traverse {A B} (f : A → result B) (l : list A) : result (list B) :=
  match l with
  | [] => Ok []
  | x :: l' => y ← f x; ys ← traverse f l'; Ok (y :: ys)
  end.

(* ===================================================================== *)
(** ** Python values *)
(* ===================================================================== *)

(** The cell values of the data model: integers, strings, lists of integers
    and lists of strings.  Strings are Rocq strings, one character per code
    point. *)
Inductive value :=
  | VInt (n : Z)
  | VStr (s : string)
  | VInts (l : list Z)
  | VStrs (l : list string).

#[global] Instance value_eq_dec : EqDecision value.
Proof. solve_decision. Defined.

(** Elements of a tuple built by [tuple(...)]: an integer never equals a
    string. *)
Inductive atom :=
  | AInt (n : Z)
  | AStr (s : string).

#[global] Instance atom_eq_dec : EqDecision atom.
Proof. solve_decision. Defined.

Definition atom_to_sum (a : atom) : Z + string :=
  match a with AInt n => inl n | AStr s => inr s end.
Definition atom_of_sum (x : Z + string) : atom :=
  match x with inl n => AInt n | inr s => AStr s end.

#[global] Instance atom_countable : Countable atom.
Proof.
  refine (inj_countable' atom_to_sum atom_of_sum _).
  intros []; reflexivity.
Defined.

Definition chars (s : string) : list ascii := list_ascii_of_string s.
Definition char_str (c : ascii) : string := String c EmptyString.

(** [l[:k]]: the first [k] elements, a negative [k] counting from the end. *)
Definition slice_to {A} (l : list A) (k : Z) : list A :=
  take (Z.to_nat (if k <? 0 then Z.of_nat (length l) + k else k)) l.

(** [len(v)] *)
Definition py_len (v : value) : result Z :=
  match v with
  | VInt _ => Raise TypeError
  | VStr s => Ok (Z.of_nat (length (chars s)))
  | VInts l => Ok (Z.of_nat (length l))
  | VStrs l => Ok (Z.of_nat (length l))
  end.

(** [v[:k]] *)
Definition py_slice_to (v : value) (k : Z) : result value :=
  match v with
  | VInt _ => Raise TypeError
  | VStr s => Ok (VStr (string_of_list_ascii (slice_to (chars s) k)))
  | VInts l => Ok (VInts (slice_to l k))
  | VStrs l => Ok (VStrs (slice_to l k))
  end.

(** [v[-1]] *)
Definition py_last (v : value) : result value :=
  match v with
  | VInt _ => Raise TypeError
  | VStr s =>
      match last (chars s) with
      | Some c => Ok (VStr (char_str c)) | None => Raise IndexError end
  | VInts l =>
      match last l with Some x => Ok (VInt x) | None => Raise IndexError end
  | VStrs l =>
      match last l with Some x => Ok (VStr x) | None => Raise IndexError end
  end.

(** [tuple(v)] *)
Definition py_tuple (v : value) : result (list atom) :=
  match v with
  | VInt _ => Raise TypeError
  | VStr s => Ok ((λ c, AStr (char_str c)) <$> chars s)
  | VInts l => Ok (AInt <$> l)
  | VStrs l => Ok (AStr <$> l)
  end.

(** [x in v] for a string [x]: membership in a list, substring test on a
    string. *)
Definition py_str_in (x : string) (v : value) : result bool :=
  match v with
  | VInt _ => Raise TypeError
  | VStr s => Ok (match index 0 x s with Some _ => true | None => false end)
  | VInts _ => Ok false
  | VStrs l => Ok (bool_decide (x ∈ l))
  end.

(* ===================================================================== *)
(** ** Datasets *)
(* ===================================================================== *)

(** One row as the program sees it: [dict[str, Any]]. *)
Abbreviation row := (gmap string value).
(** A batch of rows, column by column: [dict[str, list[Any]]]. *)
Abbreviation batch := (gmap string (list value)).

(** A dataset: its column names and its rows, in order. *)
Record Dataset := mkDataset {
  column_names : list string;
  rows : list row;
}.

Module HF.

(** The cells of column [c]. *)
Definition column (c : string) (rs : list row) : list value :=
  omap (λ r : row, r !! c) rs.

(** The rows handed to a batched function. *)
Definition to_batch (ds : Dataset) : batch :=
  foldr (λ c b, <[c := column c (rows ds)]> b) ∅ (column_names ds).

(** Writing column [c]: one cell per row, or the table cannot be built. *)
Definition set_column (c : string) (vals : list value) (rs : list row)
  : result (list row) :=
  if decide (length vals = length rs)
  then Ok (zip_with (λ (r : row) v, <[c := v]> r) rs vals)
  else Raise ArrowInvalid.

Fixpoint update_columns (out : list (string * list value)) (rs : list row)
  : result (list row) :=
  match out with
  | [] => Ok rs
  | (c, vals) :: out' => rs' ← set_column c vals rs; update_columns out' rs'
  end.

(** The schema after a [map]: returned columns that are new are appended. *)
Definition extend_names (names new : list string) : list string :=
  foldl (λ ns c, if decide (c ∈ ns) then ns else ns ++ [c]) names new.
Arguments extend_names : simpl never.

(** [Dataset.map(function, batched=True)].  An empty dataset is returned
    as it is, without calling [function].  The returned columns replace
    the columns of the same name and extend the schema with the others.
    The library calls [function] on consecutive slices of the rows and
    appends what it returns; the functions mapped here are compatible with
    appending (lemmas [truncate_sequence_batches] and
    [extract_next_term_batches]), so the rows are passed as one batch. *)
Definition map_batched
    (f : batch → result (list (string * list value))) (ds : Dataset)
  : result Dataset :=
  match rows ds with
  | [] => Ok ds
  | _ =>
      out ← f (to_batch ds);
      rs ← update_columns out (rows ds);
      Ok {| column_names := extend_names (column_names ds) out.*1;
            rows := rs |}
  end.

(** Merging the dictionary returned for one row into that row. *)
Definition update_row (r : row) (out : list (string * value)) : row :=
  foldl (λ (r : row) kv, <[kv.1 := kv.2]> r) r out.

(** [Dataset.map(function)], row by row. *)
Definition map_rows
    (f : row → result (list (string * value))) (ds : Dataset)
  : result Dataset :=
  match rows ds with
  | [] => Ok ds
  | _ =>
      outs ← traverse f (rows ds);
      Ok {| column_names :=
              extend_names (column_names ds) (default [] (head outs)).*1;
            rows := zip_with update_row (rows ds) outs |}
  end.

(** The rows at the positions where the mask holds. *)
Fixpoint keep_where {A} (mask : list bool) (l : list A) : list A :=
  match mask, l with
  | b :: mask', x :: l' =>
      if b then x :: keep_where mask' l' else keep_where mask' l'
  | _, _ => []
  end.

(** [Dataset.filter(function, batched=True)]: the rows at which the
    returned mask holds, in their order; an empty dataset is returned as it
    is.  One batch, as for [map_batched] (lemma
    [filter_by_min_length_batches]). *)
Definition filter_batched (f : batch → result (list bool)) (ds : Dataset)
  : result Dataset :=
  match rows ds with
  | [] => Ok ds
  | _ =>
      mask ← f (to_batch ds);
      if decide (length mask = length (rows ds))
      then Ok {| column_names := column_names ds;
                 rows := keep_where mask (rows ds) |}
      else Raise ArrowInvalid
  end.

(** The row-by-row filter loop for a predicate that reads and updates a
    state [S] (a closure over a mutable object): rows are visited in
    order, and the state left by one call is the state seen by the next. *)
Fixpoint filter_loop {S} (f : row → S → result (bool * S)) (s : S)
    (rs : list row) : result (list row) :=
  match rs with
  | [] => Ok []
  | r :: rs' =>
      '(keep, s') ← f r s;
      kept ← filter_loop f s' rs';
      Ok (if keep : bool then r :: kept else kept)
  end.

(** [Dataset.filter(function)], row by row. *)
Definition filter_rows {S} (f : row → S → result (bool * S)) (s : S)
    (ds : Dataset) : result Dataset :=
  rs ← filter_loop f s (rows ds);
  Ok {| column_names := column_names ds; rows := rs |}.

(** [Dataset.select_columns(cols)]: the columns must exist.  A table
    without columns has no rows, so selecting no column leaves none. *)
Definition select_columns (cols : list string) (ds : Dataset)
  : result Dataset :=
  if forallb (λ c : string, bool_decide (c ∈ column_names ds)) cols
  then Ok {| column_names := cols;
             rows := match cols with
                     | [] => []
                     | _ => filter (λ kv : string * value, kv.1 ∈ cols)
                              <$> rows ds
                     end |}
  else Raise ValueError.

(** [Dataset.remove_columns(cols)]: the columns must exist.  Both calls of
    the program remove one column right after a [map] that added another,
    so a column is always left. *)
Definition remove_columns (cols : list string) (ds : Dataset)
  : result Dataset :=
  if forallb (λ c : string, bool_decide (c ∈ column_names ds)) cols
  then Ok {| column_names := filter (λ c : string, c ∉ cols) (column_names ds);
             rows := (λ r : row, foldr delete r cols) <$> rows ds |}
  else Raise ValueError.

End HF.

(* ===================================================================== *)
(** ** src/utils.py *)
(* ===================================================================== *)

(** [seq[:max_el] if len(seq) > max_el else seq] *)
Definition truncate_one (seq : value) (max_el : Z) : result value :=
  n ← py_len seq;
  if n >? max_el then py_slice_to seq max_el else Ok seq.

Definition truncate_sequence (examples : batch) (max_el : Z)
  : result (list (string * list value)) :=
  seqs ← getitem examples "sequence";
  truncated_sequences ← traverse (λ seq, truncate_one seq max_el) seqs;
  Ok [("sequence", truncated_sequences)].

(** [[len(seq) >= n_el for seq in dataset["sequence"]]] *)
Definition filter_by_min_length (dataset : batch) (n_el : Z)
  : result (list bool) :=
  seqs ← getitem dataset "sequence";
  traverse (λ seq, n ← py_len seq; Ok (n >=? n_el)) seqs.

(** The loop of [extract_next_term], with its two accumulators. *)
Fixpoint extract_loop (seqs : list value)
    (sequence_first_terms sequence_next_term : list value)
  : result (list value * list value) :=
  match seqs with
  | [] => Ok (sequence_first_terms, sequence_next_term)
  | seq :: seqs' =>
      next_term ← py_last seq;
      new_sequence_beginning ← py_slice_to seq (-1);
      extract_loop seqs'
        (sequence_first_terms ++ [new_sequence_beginning])
        (sequence_next_term ++ [next_term])
  end.

Definition extract_next_term (examples : batch)
  : result (list (string * list value)) :=
  seqs ← getitem examples "sequence";
  '(sequence_first_terms, sequence_next_term) ← extract_loop seqs [] [];
  Ok [("sequence_first_terms", sequence_first_terms);
      ("sequence_next_term", sequence_next_term)].

(** The closure [filter_unique_sequence]; the set [seen_sequences] that it
    captures and mutates is passed in and out. *)
Definition filter_unique_sequence (example : row)
    (seen_sequences : gset (list atom))
  : result (bool * gset (list atom)) :=
  first_terms ← getitem example "sequence_first_terms";
  current_sequence_tuple ← py_tuple first_terms;
  if decide (current_sequence_tuple ∉ seen_sequences)
  then Ok (true, {[current_sequence_tuple]} ∪ seen_sequences)
  else Ok (false, seen_sequences).

Definition drop_duplicate_sequence_beginnings (dataset : Dataset)
  : result Dataset :=
  if decide ("sequence_first_terms" ∉ column_names dataset)
  then Ok dataset
  else HF.filter_rows filter_unique_sequence ∅ dataset.

(** The inner function [_add_easy_flag]. *)
Definition _add_easy_flag (example : row) : result (list (string * value)) :=
  let keywords := default (VStrs []) (example !! "keywords") in
  easy ← py_str_in "easy" keywords;
  let is_easy_value := if easy : bool then 1 else 0 in
  Ok [("is_easy", VInt is_easy_value)].

Definition add_is_easy_column (dataset : Dataset) : result Dataset :=
  if decide ("keywords" ∉ column_names dataset)
  then Ok dataset
  else HF.map_rows _add_easy_flag dataset.

(* ===================================================================== *)
(** ** src/process.py *)
(* ===================================================================== *)

(** What [load_dataset] can hand back. *)
Inductive loaded :=
  | LoadedDatasetDict (splits : gmap string Dataset)
  | LoadedDataset (ds : Dataset)
  | LoadedOther.

(** The unreliable collaborators: the dataset source, the file system and
    the Parquet writer.  A file name stands for the path [./data] joined
    with it. *)
Record environment := mkEnvironment {
  load_dataset : string → result loaded;
  mkdir_parent : string → result unit;
  to_parquet : Dataset → string → result unit;
}.

(** The calls that a run makes to its collaborators, in order. *)
Inductive call :=
  | Load (dataset_name : string)
  | MkdirParent (output_file_name : string)
  | ToParquet (ds : Dataset) (output_file_name : string).

Definition required_columns : list string :=
  ["sequence_id"; "sequence_name"; "sequence"; "keywords"].

(** 1. The body of the first [try] block: [Ok None] is its [return]. *)
Definition load_step (env : environment) (dataset_name : string)
  : result (option Dataset) :=
  full_ds ← load_dataset env dataset_name;
  match full_ds with
  | LoadedDatasetDict d => ds ← getitem d "train"; Ok (Some ds)
  | LoadedDataset ds => Ok (Some ds)
  | LoadedOther => Ok None
  end.

(** 2. Filter columns *)
Definition select_step (ds : Dataset) : result Dataset :=
  let columns_to_select :=
    filter (λ col : string, col ∈ column_names ds) required_columns in
  HF.select_columns columns_to_select ds.

(** 3. Truncate sequences *)
Definition truncate_step (max_seq_len : Z) (sub_ds : Dataset)
  : result Dataset :=
  if decide ("sequence" ∈ column_names sub_ds)
  then HF.map_batched (λ examples, truncate_sequence examples max_seq_len)
         sub_ds
  else Ok sub_ds.

(** 4. Remove sequences with less than min_seq_len elements *)
Definition min_length_step (min_seq_len : Z) (sub_ds : Dataset)
  : result Dataset :=
  if decide ("sequence" ∈ column_names sub_ds)
  then HF.filter_batched (λ dataset, filter_by_min_length dataset min_seq_len)
         sub_ds
  else Ok sub_ds.

(** 5. Add sequence beginning and next term columns *)
Definition split_step (sub_ds : Dataset) : result Dataset :=
  if decide ("sequence" ∈ column_names sub_ds)
  then sub_ds ← HF.map_batched extract_next_term sub_ds;
       HF.remove_columns ["sequence"] sub_ds
  else Ok sub_ds.

(** 6. Drop rows with duplicate sequence beginnings *)
Definition dedup_step (sub_ds : Dataset) : result Dataset :=
  if decide ("sequence_first_terms" ∈ column_names sub_ds)
  then drop_duplicate_sequence_beginnings sub_ds
  else Ok sub_ds.

(** 7. Add 'is_easy' column *)
Definition is_easy_step (sub_ds : Dataset) : result Dataset :=
  if decide ("keywords" ∈ column_names sub_ds)
  then sub_ds ← add_is_easy_column sub_ds;
       HF.remove_columns ["keywords"] sub_ds
  else Ok sub_ds.

(** Steps 2 to 7: from the loaded dataset to the one handed to the writer. *)
Definition prepare (ds : Dataset) (max_seq_len min_seq_len : Z)
  : result Dataset :=
  sub_ds ← select_step ds;
  sub_ds ← truncate_step max_seq_len sub_ds;
  sub_ds ← min_length_step min_seq_len sub_ds;
  sub_ds ← split_step sub_ds;
  sub_ds ← dedup_step sub_ds;
  is_easy_step sub_ds.

(** 8. The body of the second [try] block, with the calls it makes. *)
Definition save_step (env : environment) (sub_ds : Dataset)
    (output_file_name : string) : result unit * list call :=
  match mkdir_parent env output_file_name with
  | Raise e => (Raise e, [MkdirParent output_file_name])
  | Ok _ =>
      (to_parquet env sub_ds output_file_name,
       [MkdirParent output_file_name; ToParquet sub_ds output_file_name])
  end.

(** The whole function: how the call ends, and the calls made to the
    collaborators.  [Ok ()]: the function returns; [Raise e]: the exception
    [e] reaches the caller.  Both [except Exception] handlers log and let
    the function return. *)
Definition process_oeis_dataset (env : environment) (dataset_name : string)
    (max_seq_len min_seq_len : Z) (output_file_name : string)
  : result unit * list call :=
  match load_step env dataset_name with
  | Raise _ => (Ok (), [Load dataset_name])
  | Ok None => (Ok (), [Load dataset_name])
  | Ok (Some ds) =>
      match prepare ds max_seq_len min_seq_len with
      | Raise e => (Raise e, [Load dataset_name])
      | Ok sub_ds =>
          match save_step env sub_ds output_file_name with
          | (Ok _, calls) => (Ok (), Load dataset_name :: calls)
          | (Raise _, calls) => (Ok (), Load dataset_name :: calls)
          end
      end
  end.

(** The datasets that a run hands to the writer. *)
Definition written (calls : list call) : list Dataset :=
  omap (λ c, match c with ToParquet ds _ => Some ds | _ => None end) calls.

(* ===================================================================== *)
(** ** The worked example of the specification *)
(* ===================================================================== *)

Definition example_rows : list row :=
  [ {[ "sequence" := VInts [1; 2; 3; 4; 5; 6; 7; 8; 9];
       "keywords" := VStrs ["easy"] ]};
    {[ "sequence" := VInts [1; 2; 3; 4; 5; 6; 7; 8; 20];
       "keywords" := VStrs [] ]};
    {[ "sequence" := VInts [1; 2];
       "keywords" := VStrs ["easy"] ]} ]%string.

Definition example_dataset : Dataset :=
  {| column_names := ["sequence"; "keywords"]; rows := example_rows |}.

Definition example_output : Dataset :=
  {| column_names := ["sequence_first_terms"; "sequence_next_term"; "is_easy"];
     rows := [ {[ "sequence_first_terms" := VInts [1; 2; 3; 4; 5; 6; 7];
                  "sequence_next_term" := VInt 8;
                  "is_easy" := VInt 1 ]} ] |}.


(* ===================================================================== *)
(** ** Row-level description of the steps *)
(* ===================================================================== *)

(** The typed cells of the data model, read from a row. *)
Definition has_sequence (r : row) : Prop :=
  ∃ seq : list Z, r !! "sequence" = Some (VInts seq).
Definition has_first_terms (r : row) : Prop :=
  ∃ l : list Z, r !! "sequence_first_terms" = Some (VInts l).
Definition has_keywords (r : row) : Prop :=
  ∃ kws : list string, r !! "keywords" = Some (VStrs kws).

Definition seq_of (r : row) : list Z :=
  match r !! "sequence" with Some (VInts seq) => seq | _ => [] end.
Definition first_terms_of (r : row) : list Z :=
  match r !! "sequence_first_terms" with Some (VInts l) => l | _ => [] end.
Definition keywords_of (r : row) : list string :=
  match r !! "keywords" with Some (VStrs kws) => kws | _ => [] end.

(** What each step does to one row of integer sequences. *)
Definition truncate_list (seq : list Z) (max_el : Z) : list Z :=
  if Z.of_nat (length seq) >? max_el then slice_to seq max_el else seq.

Definition truncate_row (max_el : Z) (r : row) : row :=
  <["sequence" := VInts (truncate_list (seq_of r) max_el)]> r.

Definition split_row (r : row) : row :=
  delete "sequence"
    (<["sequence_next_term" := VInt (default 0 (last (seq_of r)))]>
       (<["sequence_first_terms" := VInts (slice_to (seq_of r) (-1))]> r)).

Definition easy_row (r : row) : row :=
  delete "keywords"
    (<["is_easy" := VInt (if bool_decide ("easy" ∈ keywords_of r)
                          then 1 else 0)]> r).

(** The mask of first occurrences: position [i] holds iff the key at [i]
    is neither in [seen] nor among the keys before [i]. *)
Fixpoint first_occurrences {K} `{Countable K} (seen : gset K) (keys : list K)
  : list bool :=
  match keys with
  | [] => []
  | k :: keys' =>
      if decide (k ∉ seen)
      then true :: first_occurrences ({[k]} ∪ seen) keys'
      else false :: first_occurrences seen keys'
  end.

(** The minimum-length predicate on a row of the data model. *)
Definition long_enough (n_el : Z) (r : row) : Prop :=
  n_el ≤ Z.of_nat (length (seq_of r)).

#[global] Instance long_enough_dec n_el r : Decision (long_enough n_el r).
Proof. unfold long_enough. apply _. Defined.

(** The deduplication key of a row of the data model. *)
Definition key_of (r : row) : list atom := AInt <$> first_terms_of r.

(** The schema after the split and after the flag derivation, for a dataset
    that has rows. *)
Definition split_names (names : list string) : list string :=
  filter (λ c : string, c ∉ ["sequence"])
    (HF.extend_names names ["sequence_first_terms"; "sequence_next_term"]).
Definition easy_names (names : list string) : list string :=
  filter (λ c : string, c ∉ ["keywords"])
    (HF.extend_names names ["is_easy"]).

(** The columns kept by step 2, and the projection of a row onto them. *)
Definition selected (names : list string) : list string :=
  filter (λ col : string, col ∈ names) required_columns.
Definition project (names : list string) (r : row) : row :=
  filter (λ kv : string * value, kv.1 ∈ selected names) r.

(** The rows after step 2: projected, or none when no column is kept. *)
Definition selected_rows (names : list string) (rs : list row) : list row :=
  match selected names with
  | [] => []
  | _ => project names <$> rs
  end.

(** Input datasets of the data model: where the schema has a [sequence]
    column its cells are lists of integers, where it has a [keywords] column
    its cells are lists of strings. *)
Definition data_model (ds : Dataset) : Prop :=
  Forall (λ r : row,
            ("sequence" ∈ column_names ds → has_sequence r) ∧
            ("keywords" ∈ column_names ds → has_keywords r)) (rows ds).

(** Steps 3 to 6 on the rows of a dataset that has the [sequence] column. *)
Definition split_rows (max_seq_len min_seq_len : Z) (rs : list row)
  : list row :=
  split_row <$> filter (long_enough min_seq_len)
                  (truncate_row max_seq_len <$> rs).
Definition sequence_rows (max_seq_len min_seq_len : Z) (rs : list row)
  : list row :=
  let rs' := split_rows max_seq_len min_seq_len rs in
  HF.keep_where (first_occurrences ∅ (key_of <$> rs')) rs'.

(** The cells of every row lie in columns of the schema. *)
Definition within_schema (ds : Dataset) : Prop :=
  Forall (λ r : row, ∀ c, is_Some (r !! c) → c ∈ column_names ds) (rows ds).

(** [rs'] has no cells outside the columns of [rs] and [new]. *)
Definition grows_by (new : list string) (rs rs' : list row) : Prop :=
  Forall2 (λ r r' : row,
             ∀ c, is_Some (r' !! c) → is_Some (r !! c) ∨ c ∈ new) rs rs'.

(** The worked example after steps 3, 4, 5 and 6. *)
Definition example_truncated : Dataset :=
  {| column_names := ["sequence"; "keywords"];
     rows :=
       [ {[ "sequence" := VInts [1; 2; 3; 4; 5; 6; 7; 8];
            "keywords" := VStrs ["easy"] ]};
         {[ "sequence" := VInts [1; 2; 3; 4; 5; 6; 7; 8];
            "keywords" := VStrs [] ]};
         {[ "sequence" := VInts [1; 2];
            "keywords" := VStrs ["easy"] ]} ] |}.

Definition example_filtered : Dataset :=
  {| column_names := ["sequence"; "keywords"];
     rows :=
       [ {[ "sequence" := VInts [1; 2; 3; 4; 5; 6; 7; 8];
            "keywords" := VStrs ["easy"] ]};
         {[ "sequence" := VInts [1; 2; 3; 4; 5; 6; 7; 8];
            "keywords" := VStrs [] ]} ] |}.

Definition example_split : Dataset :=
  {| column_names :=
       ["keywords"; "sequence_first_terms"; "sequence_next_term"];
     rows :=
       [ {[ "keywords" := VStrs ["easy"];
            "sequence_first_terms" := VInts [1; 2; 3; 4; 5; 6; 7];
            "sequence_next_term" := VInt 8 ]};
         {[ "keywords" := VStrs [];
            "sequence_first_terms" := VInts [1; 2; 3; 4; 5; 6; 7];
            "sequence_next_term" := VInt 8 ]} ] |}.

Definition example_deduplicated : Dataset :=
  {| column_names :=
       ["keywords"; "sequence_first_terms"; "sequence_next_term"];
     rows :=
       [ {[ "keywords" := VStrs ["easy"];
            "sequence_first_terms" := VInts [1; 2; 3; 4; 5; 6; 7];
            "sequence_next_term" := VInt 8 ]} ] |}.

(** A run in which the source delivers the example as its [train] split
    and the writer succeeds. *)
Definition example_env : environment :=
  {| load_dataset := λ _, Ok (LoadedDatasetDict {[ "train" := example_dataset ]});
     mkdir_parent := λ _, Ok ();
     to_parquet := λ _ _, Ok () |}.

(** Appending the columns returned for two consecutive batches. *)
Definition append_columns (out1 out2 : list (string * list value))
  : list (string * list value) :=
  zip_with (λ c1 c2, (c1.1, c1.2 ++ c2.2)) out1 out2.

(** A dataset without the [sequence] column, and a source that fails. *)
Definition names_only : Dataset :=
  {| column_names := ["sequence_name"; "keywords"];
     rows := [ {[ "sequence_name" := VStr "The prime numbers.";
                  "keywords" := VStrs ["nonn"; "core"; "easy"] ]} ] |}.

Definition unreachable_env : environment :=
  {| load_dataset := λ _, Raise OSError;
     mkdir_parent := λ _, Ok ();
     to_parquet := λ _ _, Ok () |}.

(** One row of three terms, for a configuration with a negative maximum. *)
Definition three_terms : Dataset :=
  {| column_names := ["sequence"];
     rows := [ {[ "sequence" := VInts [1; 2; 3] ]} ] |}.

(* ===================================================================== *)
(** ** main.py *)
(* ===================================================================== *)

Definition DATASET_NAME : string := "christopher/oeis".
Definition MAX_SEQUENCE_LENGTH : Z := 20.
Definition MIN_SEQUENCE_LENGTH : Z := 8.
Definition OUTPUT_FILE_NAME : string := "oeis_benchmark.parquet".

(** The body of [if __name__ == "__main__"]. *)
Definition main (env : environment) : result unit * list call :=
  process_oeis_dataset env DATASET_NAME MAX_SEQUENCE_LENGTH
    MIN_SEQUENCE_LENGTH OUTPUT_FILE_NAME.

(** A batch with a [sequence] column of mixed lengths, a dataset with two
    columns that the selection drops, and one with repeated first terms. *)
Definition example_batch : batch :=
  {[ "sequence" := [VInts [1; 2; 3]; VInts [4]; VInts [5; 6]] ]}.

Definition wide_dataset : Dataset :=
  {| column_names := ["sequence_id"; "sequence"; "author"; "keywords"];
     rows :=
       [ {[ "sequence_id" := VStr "A000040";
            "sequence" := VInts [2; 3; 5; 7; 11; 13; 17; 19; 23; 29];
            "author" := VStr "N. J. A. Sloane";
            "keywords" := VStrs ["nonn"; "core"; "easy"] ]};
         {[ "sequence_id" := VStr "A000045";
            "sequence" := VInts [0; 1; 1; 2; 3; 5; 8; 13; 21; 34];
            "author" := VStr "N. J. A. Sloane";
            "keywords" := VStrs ["nonn"; "core"] ]} ] |}.

(** What steps 2 to 5 and 7 make of one input row of a dataset with the
    column names [names]. *)
Definition prepared_row (names : list string) (max_seq_len : Z) (r : row)
  : row :=
  let r' := split_row (truncate_row max_seq_len (project names r)) in
  if decide ("keywords" ∈ names) then easy_row r' else r'.

(** A dataset with an empty sequence, and a source that delivers it. *)
Definition empty_sequence_dataset : Dataset :=
  {| column_names := ["sequence"];
     rows := [ {[ "sequence" := VInts [1; 2; 3] ]};
               {[ "sequence" := VInts [] ]} ] |}.

Definition empty_sequence_env : environment :=
  {| load_dataset := λ _, Ok (LoadedDataset empty_sequence_dataset);
     mkdir_parent := λ _, Ok ();
     to_parquet := λ _ _, Ok () |}.

(** Two rows whose first terms differ in their last element. *)
Definition distinct_first_terms : Dataset :=
  {| column_names := ["sequence_first_terms"; "sequence_next_term"];
     rows := [ {[ "sequence_first_terms" := VInts [1; 2; 3];
                  "sequence_next_term" := VInt 4 ]};
               {[ "sequence_first_terms" := VInts [1; 2; 4];
                  "sequence_next_term" := VInt 8 ]} ] |}.
(* ===================================================================== *)
(** ** The error monad and list traversal *)
(* ===================================================================== *)

Lemma bind_Ok {A B} (m : result A) (f : A → result B) (b : B) :
  m ≫= f = Ok b ↔ ∃ a, m = Ok a ∧ f a = Ok b.
Proof.
  destruct m as [a|e]; simpl; split.
  - intros H. exists a. done.
  - intros (a' & [= <-] & H). done.
  - intros [=].
  - intros (a' & [=] & _).
Qed.

Lemma bind_Ok_l {A B} (m : result A) (f : A → result B) (a : A) :
  m = Ok a → m ≫= f = f a.
Proof. by intros ->. Qed.

Lemma traverse_pure {A B} (f : A → result B) (g : A → B) (l : list A) :
  Forall (λ x, f x = Ok (g x)) l → traverse f l = Ok (g <$> l).
Proof.
  induction 1 as [|x l Hx _ IH]; simpl; [done|].
  rewrite Hx. simpl. rewrite IH. done.
Qed.

Lemma traverse_app {A B} (f : A → result B) (l1 l2 : list A) :
  traverse f (l1 ++ l2)
  = ys1 ← traverse f l1; ys2 ← traverse f l2; Ok (ys1 ++ ys2).
Proof.
  induction l1 as [|x l1 IH]; simpl.
  - by destruct (traverse f l2).
  - destruct (f x) as [y|]; simpl; [|done].
    rewrite IH. destruct (traverse f l1); simpl; [|done].
    by destruct (traverse f l2).
Qed.

(* ===================================================================== *)
(** ** Truncation *)
(* ===================================================================== *)

Lemma slice_to_nonneg {A} (l : list A) (k : Z) :
  0 ≤ k → slice_to l k = take (Z.to_nat k) l.
Proof.
  intros Hk. unfold slice_to.
  destruct (Z.ltb_spec k 0); [lia|done].
Qed.

Lemma slice_to_neg {A} (l : list A) (k : Z) :
  k < 0 → slice_to l k = take (length l - Z.to_nat (- k)) l.
Proof.
  intros Hk. unfold slice_to.
  destruct (Z.ltb_spec k 0); [|lia]. f_equal. lia.
Qed.

Lemma truncate_one_ints (seq : list Z) (max_el : Z) :
  truncate_one (VInts seq) max_el
  = Ok (VInts (if Z.of_nat (length seq) >? max_el
               then slice_to seq max_el else seq)).
Proof. unfold truncate_one. simpl. by destruct (_ >? _). Qed.

Lemma truncate_one_long (seq : list Z) (max_el : Z) :
  0 ≤ max_el → max_el < Z.of_nat (length seq) →
  truncate_one (VInts seq) max_el = Ok (VInts (take (Z.to_nat max_el) seq)).
Proof.
  intros H0 Hlt. rewrite truncate_one_ints.
  destruct (Z.gtb_spec (Z.of_nat (length seq)) max_el); [|lia].
  by rewrite slice_to_nonneg.
Qed.

Lemma truncate_one_short (seq : list Z) (max_el : Z) :
  Z.of_nat (length seq) ≤ max_el →
  truncate_one (VInts seq) max_el = Ok (VInts seq).
Proof.
  intros Hle. rewrite truncate_one_ints.
  destruct (Z.gtb_spec (Z.of_nat (length seq)) max_el); [lia|done].
Qed.

(** The length of a truncated sequence, for a bound that is not negative. *)
Lemma truncate_one_length (seq : list Z) (max_el : Z) :
  0 ≤ max_el →
  ∃ seq', truncate_one (VInts seq) max_el = Ok (VInts seq')
          ∧ Z.of_nat (length seq') = Z.min (Z.of_nat (length seq)) max_el.
Proof.
  intros H0.
  destruct (Z.le_gt_cases (Z.of_nat (length seq)) max_el) as [Hle|Hgt].
  - exists seq. split; [by apply truncate_one_short|lia].
  - exists (take (Z.to_nat max_el) seq).
    split; [by apply truncate_one_long|].
    rewrite length_take. lia.
Qed.

(** A negative bound is Python's [seq[:-k]]: it removes the last [k]
    elements, so truncating twice removes them twice. *)
Example truncate_one_negative :
  truncate_one (VInts [1; 2; 3]) (-1) = Ok (VInts [1; 2]) ∧
  truncate_one (VInts [1; 2]) (-1) = Ok (VInts [1]).
Proof. split; reflexivity. Qed.

(** C3. Truncation ([truncate_sequence], src/utils.py) for a bound
    [max_el >= 0]: a sequence longer than [max_el] becomes its first
    [max_el] elements; a sequence of length at most [max_el] is returned
    unchanged; hence truncating the result of a truncation changes nothing.
    The batch function applies this to every sequence of the column. *)
Theorem truncate_sequence_spec (max_el : Z) (H0 : 0 ≤ max_el) :
  (∀ seq : list Z, max_el < Z.of_nat (length seq) →
     truncate_one (VInts seq) max_el
     = Ok (VInts (take (Z.to_nat max_el) seq))) ∧
  (∀ seq : list Z, Z.of_nat (length seq) ≤ max_el →
     truncate_one (VInts seq) max_el = Ok (VInts seq)) ∧
  (∀ seq : list Z, ∃ seq',
     truncate_one (VInts seq) max_el = Ok (VInts seq') ∧
     Z.of_nat (length seq') ≤ max_el ∧
     truncate_one (VInts seq') max_el = Ok (VInts seq')) ∧
  (∀ (examples : batch) (seqs : list (list Z)),
     examples !! "sequence" = Some (VInts <$> seqs) →
     truncate_sequence examples max_el
     = Ok [("sequence",
            (λ seq, VInts (if decide (max_el < Z.of_nat (length seq))
                           then take (Z.to_nat max_el) seq else seq))
              <$> seqs)]).
Proof.
  split_and!.
  - intros seq Hlt. by apply truncate_one_long.
  - intros seq Hle. by apply truncate_one_short.
  - intros seq.
    destruct (truncate_one_length seq max_el H0) as (seq' & Heq & Hlen).
    exists seq'. split_and!; [done|lia|].
    apply truncate_one_short. lia.
  - intros examples seqs Hcol. unfold truncate_sequence, getitem.
    rewrite Hcol. simpl.
    rewrite (traverse_pure _
      (λ v, match v with
            | VInts seq => VInts (if decide (max_el < Z.of_nat (length seq))
                                  then take (Z.to_nat max_el) seq else seq)
            | _ => v end)).
    + simpl. do 3 f_equal. rewrite <- list_fmap_compose. done.
    + apply Forall_fmap, Forall_forall. intros seq _. simpl.
      case_decide.
      * by apply truncate_one_long.
      * apply truncate_one_short. lia.
Qed.


(* ===================================================================== *)
(** ** The dataset operations *)
(* ===================================================================== *)

Section library.
Import HF.

Lemma column_pure (c : string) (g : row → value) (rs : list row) :
  Forall (λ r : row, r !! c = Some (g r)) rs → column c rs = g <$> rs.
Proof.
  unfold column. induction 1 as [|r rs Hr _ IH]; simpl; [done|].
  rewrite Hr. simpl. f_equal. exact IH.
Qed.

Lemma to_batch_lookup (ds : Dataset) (c : string) :
  c ∈ column_names ds →
  to_batch ds !! c = Some (column c (rows ds)).
Proof.
  unfold to_batch. induction (column_names ds) as [|c' cs IH]; simpl.
  - by intros ?%elem_of_nil.
  - intros [->|Hin]%elem_of_cons.
    + by rewrite lookup_insert_eq.
    + destruct (decide (c' = c)) as [->|Hne].
      * by rewrite lookup_insert_eq.
      * rewrite lookup_insert_ne; auto.
Qed.

(** Columns computed row by row are written back row by row. *)
Lemma update_columns_pure (cgs : list (string * (row → value)))
    (h : row → row) (rs : list row) :
  update_columns ((λ cg, (cg.1, cg.2 <$> rs)) <$> cgs) (h <$> rs)
  = Ok ((λ r, foldl (λ (acc : row) cg, <[cg.1 := cg.2 r]> acc) (h r) cgs)
          <$> rs).
Proof.
  revert h. induction cgs as [|[c g] cgs IH]; intros h; simpl; [done|].
  unfold set_column. rewrite !length_fmap.
  rewrite decide_True by done. simpl.
  rewrite zip_with_fmap_l, zip_with_fmap_r, zip_with_diag.
  rewrite (IH (λ r, <[c := g r]> (h r))). done.
Qed.

Lemma extend_names_present (names new : list string) :
  new ⊆ names → extend_names names new = names.
Proof.
  unfold extend_names. induction new as [|c new IH]; simpl; [done|].
  intros Hsub. rewrite decide_True by set_solver.
  apply IH. set_solver.
Qed.

Lemma elem_of_extend_names (names new : list string) (c : string) :
  c ∈ extend_names names new ↔ c ∈ names ∨ c ∈ new.
Proof.
  unfold extend_names. revert names.
  induction new as [|c' new IH]; intros names; simpl.
  - set_solver.
  - rewrite IH. case_decide; set_solver.
Qed.

Lemma keep_where_filter {A} (P : A → Prop) `{∀ x, Decision (P x)}
    (l : list A) :
  keep_where ((λ x, bool_decide (P x)) <$> l) l = filter P l.
Proof.
  induction l as [|x l IH]; simpl; [done|].
  rewrite filter_cons.
  destruct (decide (P x)).
  - rewrite bool_decide_eq_true_2 by done. f_equal. exact IH.
  - rewrite bool_decide_eq_false_2 by done. exact IH.
Qed.

Lemma keep_where_sublist {A} (mask : list bool) (l : list A) :
  sublist (keep_where mask l) l.
Proof.
  revert l. induction mask as [|keep mask IH]; intros [|x l]; simpl;
    try apply sublist_nil_l.
  destruct keep; constructor; apply IH.
Qed.

End library.

Section steps.
Import HF.

Lemma dataset_eta (ds : Dataset) :
  {| column_names := column_names ds; rows := rows ds |} = ds.
Proof. by destruct ds. Qed.

Lemma map_batched_pure
    (f : batch → result (list (string * list value))) (ds : Dataset)
    (cgs : list (string * (row → value))) :
  rows ds ≠ [] →
  f (to_batch ds) = Ok ((λ cg, (cg.1, cg.2 <$> rows ds)) <$> cgs) →
  map_batched f ds
  = Ok {| column_names := extend_names (column_names ds) cgs.*1;
          rows := (λ r, foldl (λ (acc : row) cg, <[cg.1 := cg.2 r]> acc)
                          r cgs) <$> rows ds |}.
Proof.
  intros Hne Hf. unfold map_batched.
  destruct (rows ds) as [|r rs] eqn:Hrows; [done|].
  rewrite (bind_Ok_l _ _ _ Hf).
  pose proof (update_columns_pure cgs id (r :: rs)) as Hup.
  rewrite list_fmap_id in Hup. rewrite (bind_Ok_l _ _ _ Hup).
  do 2 f_equal. rewrite <- list_fmap_compose. done.
Qed.

Lemma filter_batched_pure (f : batch → result (list bool)) (ds : Dataset)
    (mask : list bool) :
  f (to_batch ds) = Ok mask → length mask = length (rows ds) →
  filter_batched f ds
  = Ok {| column_names := column_names ds;
          rows := keep_where mask (rows ds) |}.
Proof.
  intros Hf Hlen. unfold filter_batched.
  destruct (rows ds) as [|r rs] eqn:Hrows.
  - f_equal. destruct ds, mask; simpl in *; by subst.
  - rewrite (bind_Ok_l _ _ _ Hf). by rewrite decide_True.
Qed.

Lemma seq_of_lookup (r : row) :
  has_sequence r → r !! "sequence" = Some (VInts (seq_of r)).
Proof. intros [seq Hseq]. unfold seq_of. by rewrite Hseq. Qed.

Lemma first_terms_of_lookup (r : row) :
  has_first_terms r →
  r !! "sequence_first_terms" = Some (VInts (first_terms_of r)).
Proof. intros [l Hl]. unfold first_terms_of. by rewrite Hl. Qed.

Lemma sequence_column (ds : Dataset) :
  "sequence" ∈ column_names ds → Forall has_sequence (rows ds) →
  getitem (to_batch ds) "sequence"
  = Ok ((λ r, VInts (seq_of r)) <$> rows ds).
Proof.
  intros Hin Hty. unfold getitem. rewrite to_batch_lookup by done.
  f_equal. apply column_pure.
  eapply Forall_impl; [exact Hty|]. apply seq_of_lookup.
Qed.

Lemma truncate_one_list (seq : list Z) (max_el : Z) :
  truncate_one (VInts seq) max_el = Ok (VInts (truncate_list seq max_el)).
Proof. apply truncate_one_ints. Qed.

(** Step 3 on a dataset of the data model. *)
Lemma truncate_step_rows (max_seq_len : Z) (ds : Dataset) :
  "sequence" ∈ column_names ds → Forall has_sequence (rows ds) →
  truncate_step max_seq_len ds
  = Ok {| column_names := column_names ds;
          rows := truncate_row max_seq_len <$> rows ds |}.
Proof.
  intros Hin Hty. unfold truncate_step. rewrite decide_True by done.
  destruct (decide (rows ds = [])) as [Hnil|Hne].
  - unfold map_batched. rewrite Hnil. simpl.
    rewrite <- Hnil. by rewrite dataset_eta.
  - rewrite (map_batched_pure _ ds
      [("sequence", λ r, VInts (truncate_list (seq_of r) max_seq_len))]).
    + do 2 f_equal. apply extend_names_present. simpl. set_solver.
    + done.
    + unfold truncate_sequence. rewrite sequence_column by done. simpl.
      rewrite (traverse_pure _
        (λ v, match v with
              | VInts seq => VInts (truncate_list seq max_seq_len)
              | _ => v end)).
      * simpl. do 3 f_equal. by rewrite <- list_fmap_compose.
      * apply Forall_fmap, Forall_forall. intros r _. simpl.
        apply truncate_one_list.
Qed.

(** Step 4 on a dataset of the data model. *)
Lemma min_length_step_rows (min_seq_len : Z) (ds : Dataset) :
  "sequence" ∈ column_names ds → Forall has_sequence (rows ds) →
  min_length_step min_seq_len ds
  = Ok {| column_names := column_names ds;
          rows := filter (long_enough min_seq_len) (rows ds) |}.
Proof.
  intros Hin Hty. unfold min_length_step. rewrite decide_True by done.
  rewrite (filter_batched_pure _ ds
    ((λ r, bool_decide (long_enough min_seq_len r)) <$> rows ds)).
  - do 2 f_equal. apply (keep_where_filter (long_enough min_seq_len)).
  - unfold filter_by_min_length.
    rewrite (bind_Ok_l _ _ _ (sequence_column ds Hin Hty)).
    rewrite (traverse_pure _
        (λ v, match v with
              | VInts seq => bool_decide (min_seq_len ≤ Z.of_nat (length seq))
              | _ => false end)).
    + f_equal. by rewrite <- list_fmap_compose.
    + apply Forall_fmap, Forall_forall. intros r' _. simpl. f_equal.
      destruct (Z.geb_spec (Z.of_nat (length (seq_of r'))) min_seq_len).
      * by rewrite bool_decide_eq_true_2 by lia.
      * by rewrite bool_decide_eq_false_2 by lia.
  - by rewrite length_fmap.
Qed.

Lemma remove_columns_one (c : string) (ds : Dataset) :
  c ∈ column_names ds →
  remove_columns [c] ds
  = Ok {| column_names := filter (λ c' : string, c' ∉ [c]) (column_names ds);
          rows := delete c <$> rows ds |}.
Proof.
  intros Hin. unfold remove_columns. simpl.
  by rewrite bool_decide_eq_true_2.
Qed.

Lemma extract_loop_pure (rs : list row) (acc1 acc2 : list value) :
  Forall (λ r, seq_of r ≠ []) rs →
  extract_loop ((λ r, VInts (seq_of r)) <$> rs) acc1 acc2
  = Ok (acc1 ++ ((λ r, VInts (slice_to (seq_of r) (-1))) <$> rs),
        acc2 ++ ((λ r, VInt (default 0 (last (seq_of r)))) <$> rs)).
Proof.
  intros Hne. revert acc1 acc2.
  induction Hne as [|r rs Hr _ IH]; intros acc1 acc2; simpl.
  - by rewrite !app_nil_r.
  - destruct (last (seq_of r)) as [x|] eqn:Hlast.
    + simpl. rewrite IH. by rewrite <- !app_assoc.
    + by apply last_None in Hlast.
Qed.

(** Step 5 on a dataset of the data model whose sequences are not empty. *)
Lemma split_step_rows (ds : Dataset) :
  "sequence" ∈ column_names ds → Forall has_sequence (rows ds) →
  Forall (λ r, seq_of r ≠ []) (rows ds) →
  split_step ds
  = Ok {| column_names :=
            if decide (rows ds = [])
            then filter (λ c : string, c ∉ ["sequence"]) (column_names ds)
            else split_names (column_names ds);
          rows := split_row <$> rows ds |}.
Proof.
  intros Hin Hty Hne. unfold split_step. rewrite decide_True by done.
  destruct (decide (rows ds = [])) as [Hnil|Hrows].
  - unfold map_batched. rewrite Hnil.
    rewrite (bind_Ok_l _ _ ds eq_refl).
    rewrite remove_columns_one by done. by rewrite Hnil.
  - assert (extract_next_term (to_batch ds)
            = Ok ((λ cg, (cg.1, cg.2 <$> rows ds)) <$>
              [("sequence_first_terms",
                λ r, VInts (slice_to (seq_of r) (-1)));
               ("sequence_next_term",
                λ r, VInt (default 0 (last (seq_of r))))])) as Hf.
    { unfold extract_next_term.
      rewrite (bind_Ok_l _ _ _ (sequence_column ds Hin Hty)).
      by rewrite (bind_Ok_l _ _ _ (extract_loop_pure _ [] [] Hne)). }
    rewrite (bind_Ok_l _ _ _ (map_batched_pure _ ds _ Hrows Hf)).
    rewrite remove_columns_one.
    + do 2 f_equal. simpl. by rewrite <- list_fmap_compose.
    + simpl. apply elem_of_extend_names. by left.
Qed.

Lemma keywords_of_lookup (r : row) :
  has_keywords r → r !! "keywords" = Some (VStrs (keywords_of r)).
Proof. intros [kws Hkws]. unfold keywords_of. by rewrite Hkws. Qed.

Lemma add_easy_flag_keywords (r : row) :
  has_keywords r →
  _add_easy_flag r
  = Ok [("is_easy",
         VInt (if bool_decide ("easy" ∈ keywords_of r) then 1 else 0))].
Proof.
  intros Hkw. unfold _add_easy_flag.
  rewrite (keywords_of_lookup r Hkw). done.
Qed.

Lemma map_rows_pure (f : row → result (list (string * value)))
    (g : row → list (string * value)) (ds : Dataset) :
  rows ds ≠ [] → Forall (λ r, f r = Ok (g r)) (rows ds) →
  map_rows f ds
  = Ok {| column_names :=
            extend_names (column_names ds)
              (default [] (head (g <$> rows ds))).*1;
          rows := (λ r, update_row r (g r)) <$> rows ds |}.
Proof.
  intros Hne Hf. unfold map_rows.
  destruct (rows ds) as [|r rs] eqn:Hrows; [done|].
  rewrite (bind_Ok_l _ _ _ (traverse_pure f g _ Hf)).
  do 2 f_equal. by rewrite zip_with_fmap_r, zip_with_diag.
Qed.

(** Step 7 on a dataset of the data model. *)
Lemma is_easy_step_rows (ds : Dataset) :
  "keywords" ∈ column_names ds → Forall has_keywords (rows ds) →
  is_easy_step ds
  = Ok {| column_names :=
            if decide (rows ds = [])
            then filter (λ c : string, c ∉ ["keywords"]) (column_names ds)
            else easy_names (column_names ds);
          rows := easy_row <$> rows ds |}.
Proof.
  intros Hin Hty. unfold is_easy_step, add_is_easy_column.
  rewrite decide_True by done. rewrite decide_False by auto.
  destruct (decide (rows ds = [])) as [Hnil|Hrows].
  - unfold map_rows. rewrite Hnil.
    rewrite (bind_Ok_l _ _ ds eq_refl).
    rewrite remove_columns_one by done. by rewrite Hnil.
  - rewrite (bind_Ok_l _ _ _ (map_rows_pure _
      (λ r, [("is_easy",
              VInt (if bool_decide ("easy" ∈ keywords_of r) then 1 else 0))])
      ds Hrows
      (Forall_impl _ _ _ Hty add_easy_flag_keywords))).
    rewrite remove_columns_one.
    + do 2 f_equal.
      * destruct (rows ds); done.
      * simpl. by rewrite <- list_fmap_compose.
    + simpl. apply elem_of_extend_names. by left.
Qed.

Lemma filter_unique_sequence_key (r : row) (seen : gset (list atom)) :
  has_first_terms r →
  filter_unique_sequence r seen
  = Ok (if decide (key_of r ∉ seen)
        then (true, {[key_of r]} ∪ seen) else (false, seen)).
Proof.
  intros Hr. unfold filter_unique_sequence, getitem.
  rewrite (first_terms_of_lookup r Hr). simpl. fold (key_of r).
  by destruct (decide (key_of r ∉ seen)).
Qed.

(** The loop of the deduplicator computes the mask of first occurrences. *)
Lemma filter_loop_first_occurrences (rs : list row)
    (seen : gset (list atom)) :
  Forall has_first_terms rs →
  filter_loop filter_unique_sequence seen rs
  = Ok (keep_where (first_occurrences seen (key_of <$> rs)) rs).
Proof.
  intros Hty. revert seen.
  induction Hty as [|r rs Hr _ IH]; intros seen; [done|].
  cbn [filter_loop fmap list_fmap first_occurrences].
  rewrite (bind_Ok_l _ _ _ (filter_unique_sequence_key r seen Hr)).
  destruct (decide (key_of r ∉ seen)); cbn [keep_where];
    by rewrite (bind_Ok_l _ _ _ (IH _)).
Qed.

End steps.

(* ===================================================================== *)
(** ** First occurrences *)
(* ===================================================================== *)

Section first_occurrences.
Context {K : Type} `{Countable K}.
Implicit Types (seen : gset K) (keys : list K).
Local Open Scope nat_scope.

Lemma first_occurrences_length seen keys :
  length (first_occurrences seen keys) = length keys.
Proof.
  revert seen. induction keys as [|k keys IH]; intros seen; simpl; [done|].
  destruct (decide (k ∉ seen)); simpl; by rewrite IH.
Qed.

Lemma first_occurrences_lookup seen keys i b :
  first_occurrences seen keys !! i = Some b ↔
  ∃ k, keys !! i = Some k ∧
       (b = true ↔ k ∉ seen ∧ k ∉ take i keys).
Proof.
  revert seen i. induction keys as [|k0 keys IH]; intros seen i.
  - simpl. rewrite !lookup_nil. split; [done|]. by intros (k & ? & _).
  - cbn [first_occurrences].
    destruct i as [|i].
    + destruct (decide (k0 ∉ seen)) as [Hk0|Hk0]; simpl.
      * split.
        -- intros [= <-]. exists k0. split; [done|].
           split; [|done]. intros _. split; [done|]. apply not_elem_of_nil.
        -- intros (k & [= <-] & Hb). f_equal. symmetry. apply Hb.
           split; [done|]. apply not_elem_of_nil.
      * split.
        -- intros [= <-]. exists k0. split; [done|].
           split; [done|]. by intros [? _].
        -- intros (k & [= <-] & Hb). f_equal.
           destruct b; [|done]. by destruct Hb as [[? _] _].
    + destruct (decide (k0 ∉ seen)) as [Hk0|Hk0]; simpl;
        rewrite IH; apply exist_proper; intros k;
        apply and_iff_compat_l; rewrite not_elem_of_cons.
      * rewrite not_elem_of_union, not_elem_of_singleton. naive_solver.
      * apply dec_stable in Hk0.
        split; intros Hb; rewrite Hb; [|naive_solver].
        split; [|naive_solver]. intros [Hk Ht].
        split_and!; [done| |done]. by intros ->.
Qed.

(** A position holds iff its key occurs at no earlier position (and is
    not in the initial set). *)
Lemma first_occurrences_true seen keys i k :
  keys !! i = Some k →
  first_occurrences seen keys !! i = Some true ↔
  k ∉ seen ∧ ∀ j k', j < i → keys !! j = Some k' → k' ≠ k.
Proof.
  intros Hk. rewrite first_occurrences_lookup. split.
  - intros (k' & Hk' & Hb). simplify_eq.
    destruct Hb as [Hb _]. destruct (Hb eq_refl) as [Hseen Htake].
    split; [done|]. intros j k' Hj Hk' ->. apply Htake.
    apply list_elem_of_lookup. exists j. by rewrite lookup_take_lt.
  - intros [Hseen Hfirst]. exists k. split; [done|].
    split; [|done]. intros _. split; [done|].
    intros (j & Hj)%list_elem_of_lookup.
    assert (j < i) by (apply lookup_lt_Some in Hj;
                        rewrite length_take in Hj; lia).
    rewrite lookup_take_lt in Hj by done. by eapply Hfirst.
Qed.

(** A position that does not hold has an earlier position with the same
    key that does. *)
Lemma first_occurrences_false keys i k :
  keys !! i = Some k →
  first_occurrences ∅ keys !! i = Some false →
  ∃ j, j < i ∧ keys !! j = Some k ∧
       first_occurrences ∅ keys !! j = Some true.
Proof.
  intros Hk (k' & Hk' & Hb)%first_occurrences_lookup. simplify_eq.
  assert (k ∈ take i keys) as Hin.
  { destruct (decide (k ∈ take i keys)) as [|Hnot]; [done|].
    assert (false = true); [|done].
    apply Hb. split; [set_solver|done]. }
  apply list_elem_of_split_l in Hin as (l1 & l2 & Hsplit & Hfresh).
  assert (length l1 < i) as Hlt.
  { assert (length (take i keys) ≤ i) by (rewrite length_take; lia).
    rewrite Hsplit, length_app in *. simpl in *. lia. }
  assert (keys !! length l1 = Some k) as Hj.
  { rewrite <- (lookup_take_lt keys i) by done.
    rewrite Hsplit. by rewrite list_lookup_middle. }
  exists (length l1). split_and!; [done..|].
  apply first_occurrences_true with k; [done|].
  split; [set_solver|]. intros j k'' Hjlt Hk'' ->. apply Hfresh.
  apply list_elem_of_lookup. exists j.
  rewrite <- (lookup_app_l l1 (k :: l2)) by done.
  rewrite <- Hsplit. rewrite lookup_take_lt by lia. done.
Qed.

Lemma keep_where_first_occurrences_NoDup seen keys :
  NoDup (HF.keep_where (first_occurrences seen keys) keys) ∧
  ∀ k, k ∈ HF.keep_where (first_occurrences seen keys) keys → k ∉ seen.
Proof.
  revert seen. induction keys as [|k0 keys IH]; intros seen; simpl.
  - split; [constructor|]. by intros k ?%elem_of_nil.
  - destruct (decide (k0 ∉ seen)) as [Hk0|Hk0]; simpl.
    + destruct (IH ({[k0]} ∪ seen)) as [Hnd Hfresh]. split.
      * constructor; [|done]. intros Hin%Hfresh. set_solver.
      * intros k [->|Hin%Hfresh]%elem_of_cons; set_solver.
    + apply IH.
Qed.

End first_occurrences.

Lemma keep_where_fmap {A B} (f : A → B) (mask : list bool) (l : list A) :
  HF.keep_where mask (f <$> l) = f <$> HF.keep_where mask l.
Proof.
  revert l. induction mask as [|keep mask IH]; intros [|x l]; simpl; try done.
  destruct keep; simpl; by rewrite IH.
Qed.

(* ===================================================================== *)
(** ** Batches *)
(* ===================================================================== *)

(** [Dataset.map] and [Dataset.filter] hand the rows to a batched function
    in consecutive slices and append the results.  The three batched
    functions treat every sequence on its own, so the slicing does not show:
    on a column [seqs1 ++ seqs2] each gives what it gives on [seqs1]
    followed by what it gives on [seqs2], and raises if it raises on one of
    them.  This is why [HF.map_batched] and [HF.filter_batched] pass the
    whole dataset as one batch. *)

Lemma extract_loop_acc (seqs acc1 acc2 : list value) :
  extract_loop seqs acc1 acc2
  = out ← extract_loop seqs [] []; Ok (acc1 ++ out.1, acc2 ++ out.2).
Proof.
  revert acc1 acc2. induction seqs as [|seq seqs IH]; intros acc1 acc2.
  - simpl. by rewrite !app_nil_r.
  - cbn [extract_loop].
    destruct (py_last seq) as [next_term|]; [|done]. cbn [mbind result_bind].
    destruct (py_slice_to seq (-1)) as [beginning|]; [|done].
    cbn [mbind result_bind].
    rewrite (IH (acc1 ++ [beginning])), (IH ([] ++ [beginning])).
    destruct (extract_loop seqs [] []) as [[l1 l2]|]; [|done]. simpl.
    by rewrite <- !app_assoc.
Qed.

Lemma extract_loop_app (seqs1 seqs2 : list value) :
  extract_loop (seqs1 ++ seqs2) [] []
  = out1 ← extract_loop seqs1 [] []; out2 ← extract_loop seqs2 [] [];
    Ok (out1.1 ++ out2.1, out1.2 ++ out2.2).
Proof.
  induction seqs1 as [|seq seqs1 IH].
  - simpl. by destruct (extract_loop seqs2 [] []) as [[l1 l2]|].
  - cbn [app extract_loop].
    destruct (py_last seq) as [next_term|]; [|done]. cbn [mbind result_bind].
    destruct (py_slice_to seq (-1)) as [beginning|]; [|done].
    cbn [mbind result_bind].
    rewrite (extract_loop_acc (seqs1 ++ seqs2)), (extract_loop_acc seqs1).
    rewrite IH.
    destruct (extract_loop seqs1 [] []) as [[l1 l2]|]; [|done].
    cbn [mbind result_bind].
    by destruct (extract_loop seqs2 [] []) as [[k1 k2]|].
Qed.

Section batches.
Context (b b1 b2 : batch) (seqs1 seqs2 : list value).
Hypothesis Hb1 : b1 !! "sequence" = Some seqs1.
Hypothesis Hb2 : b2 !! "sequence" = Some seqs2.
Hypothesis Hb : b !! "sequence" = Some (seqs1 ++ seqs2).

Lemma truncate_sequence_batches (max_el : Z) :
  truncate_sequence b max_el
  = out1 ← truncate_sequence b1 max_el;
    out2 ← truncate_sequence b2 max_el;
    Ok (append_columns out1 out2).
Proof.
  unfold truncate_sequence, getitem. rewrite Hb, Hb1, Hb2.
  cbn [mbind result_bind]. rewrite traverse_app.
  destruct (traverse _ seqs1); [|done]. cbn [mbind result_bind].
  by destruct (traverse _ seqs2).
Qed.

Lemma filter_by_min_length_batches (n_el : Z) :
  filter_by_min_length b n_el
  = mask1 ← filter_by_min_length b1 n_el;
    mask2 ← filter_by_min_length b2 n_el;
    Ok (mask1 ++ mask2).
Proof.
  unfold filter_by_min_length, getitem. rewrite Hb, Hb1, Hb2.
  cbn [mbind result_bind]. apply traverse_app.
Qed.

Lemma extract_next_term_batches :
  extract_next_term b
  = out1 ← extract_next_term b1;
    out2 ← extract_next_term b2;
    Ok (append_columns out1 out2).
Proof.
  unfold extract_next_term, getitem. rewrite Hb, Hb1, Hb2.
  cbn [mbind result_bind]. rewrite extract_loop_app.
  destruct (extract_loop seqs1 [] []) as [[l1 l2]|]; [|done].
  cbn [mbind result_bind].
  by destruct (extract_loop seqs2 [] []) as [[k1 k2]|].
Qed.

End batches.

(** A row with an empty sequence makes the split raise [IndexError],
    whatever the other rows are. *)
Lemma extract_loop_empty (seqs acc1 acc2 : list value) :
  Forall (λ v, ∃ seq : list Z, v = VInts seq) seqs →
  VInts [] ∈ seqs →
  extract_loop seqs acc1 acc2 = Raise IndexError.
Proof.
  intros Hty. revert acc1 acc2.
  induction Hty as [|v seqs [seq ->] _ IH]; intros acc1 acc2 Hin.
  - by apply elem_of_nil in Hin.
  - cbn [extract_loop py_last].
    destruct (last seq) as [x|] eqn:Hlast; [|done].
    cbn [mbind result_bind py_slice_to]. apply IH.
    apply elem_of_cons in Hin as [[= <-]|?]; [done|done].
Qed.

(* ===================================================================== *)
(** ** The steps, one by one *)
(* ===================================================================== *)

Lemma truncate_row_has_sequence (max_el : Z) (r : row) :
  has_sequence (truncate_row max_el r).
Proof. eexists. unfold truncate_row. by rewrite lookup_insert_eq. Qed.

Lemma slice_to_last {A} (l : list A) (x : A) :
  last l = Some x → slice_to l (-1) = take (length l - 1) l ∧
                    slice_to l (-1) ++ [x] = l.
Proof.
  intros [l' ->]%last_Some.
  rewrite slice_to_neg by lia. change (Z.to_nat (- -1)) with 1%nat.
  rewrite take_app_length' by (rewrite length_app; simpl; lia). done.
Qed.

Lemma not_elem_of_filter_singleton (c : string) (names : list string) :
  c ∉ filter (λ c' : string, c' ∉ [c]) names.
Proof. rewrite list_elem_of_filter. set_solver. Qed.

(** A row with an empty sequence makes step 5 raise [IndexError]: the
    split needs every sequence of the batch to have an element. *)
Lemma split_step_empty_sequence (ds : Dataset) :
  "sequence" ∈ column_names ds → Forall has_sequence (rows ds) →
  Exists (λ r, seq_of r = []) (rows ds) →
  split_step ds = Raise IndexError.
Proof.
  intros Hin Hty Hex. unfold split_step. rewrite decide_True by done.
  unfold HF.map_batched.
  destruct (rows ds) as [|r rs] eqn:Hrows; [by apply Exists_nil in Hex|].
  rewrite <- Hrows in *. unfold extract_next_term.
  rewrite (bind_Ok_l _ _ _ (sequence_column ds Hin Hty)).
  rewrite extract_loop_empty; [done| |].
  - apply Forall_fmap, Forall_forall. intros r' _. by eexists.
  - apply Exists_exists in Hex as (r' & Hr' & Hnil).
    apply list_elem_of_fmap. exists r'. by rewrite Hnil.
Qed.

(** C1. The split ([extract_next_term], and step 5 of src/process.py, which
    maps it over the dataset and then removes the [sequence] column).  For
    a non-empty sequence the function returns its last element as
    [sequence_next_term] and the elements before it as
    [sequence_first_terms], and appending the former to the latter gives
    the sequence back.  On a dataset whose rows all carry a non-empty
    integer sequence, step 5 returns a dataset without the [sequence]
    column in which every row has these two cells. *)
Theorem split_step_spec :
  (∀ (seq : list Z) (next_term : Z),
     last seq = Some next_term →
     extract_next_term {[ "sequence" := [VInts seq] ]}
     = Ok [("sequence_first_terms", [VInts (take (length seq - 1) seq)]);
           ("sequence_next_term", [VInt next_term])] ∧
     take (length seq - 1) seq ++ [next_term] = seq) ∧
  (∀ ds : Dataset,
     "sequence" ∈ column_names ds →
     Forall (λ r : row, ∃ seq : list Z,
               r !! "sequence" = Some (VInts seq) ∧ seq ≠ []) (rows ds) →
     ∃ ds', split_step ds = Ok ds' ∧
       "sequence" ∉ column_names ds' ∧
       Forall2 (λ r r' : row, ∃ (seq first_terms : list Z) (next_term : Z),
           r !! "sequence" = Some (VInts seq) ∧
           r' !! "sequence_first_terms" = Some (VInts first_terms) ∧
           r' !! "sequence_next_term" = Some (VInt next_term) ∧
           last seq = Some next_term ∧
           first_terms = take (length seq - 1) seq ∧
           first_terms ++ [next_term] = seq ∧
           r' !! "sequence" = None)
         (rows ds) (rows ds')).
Proof.
  split.
  { intros seq x Hlast. destruct (slice_to_last seq x Hlast) as [Htake Happ].
    rewrite <- Htake. split; [|done].
    unfold extract_next_term, getitem. rewrite lookup_singleton_eq.
    cbn [mbind result_bind extract_loop py_last py_slice_to].
    by rewrite Hlast. }
  intros ds Hin Hrows.
  assert (Forall has_sequence (rows ds)) as Hty.
  { eapply Forall_impl; [exact Hrows|]. intros r (seq & ? & _). by exists seq. }
  assert (Forall (λ r, seq_of r ≠ []) (rows ds)) as Hne.
  { eapply Forall_impl; [exact Hrows|]. intros r (seq & Hseq & ?).
    unfold seq_of. by rewrite Hseq. }
  eexists. split; [by apply split_step_rows|]. split.
  - simpl. case_decide.
    + apply not_elem_of_filter_singleton.
    + apply not_elem_of_filter_singleton.
  - simpl. apply Forall2_fmap_r, Forall_Forall2_diag.
    eapply Forall_impl; [exact Hrows|]. intros r (seq & Hseq & Hnil).
    assert (seq_of r = seq) as Hof by (unfold seq_of; by rewrite Hseq).
    destruct (last seq) as [x|] eqn:Hlast; [|by apply last_None in Hlast].
    destruct (slice_to_last seq x Hlast) as [Htake Happ].
    exists seq, (slice_to seq (-1)), x. unfold split_row. rewrite Hof, Hlast.
    split_and!; try done.
    + rewrite lookup_delete_ne by done. rewrite lookup_insert_ne by done.
      by rewrite lookup_insert_eq.
    + rewrite lookup_delete_ne by done. by rewrite lookup_insert_eq.
    + by rewrite lookup_delete_eq.
Qed.

(** C4. The minimum-length filter ([filter_by_min_length] under
    [Dataset.filter], src/process.py step 4): on a dataset whose rows carry
    an integer sequence, the step keeps the schema and returns, in their
    original order, exactly the rows whose sequence has at least
    [min_seq_len] elements.  In the pipeline the step runs on the result of
    the truncation step, so the length it measures is the length after
    truncation. *)
Theorem min_length_step_spec (min_seq_len : Z) :
  (∀ ds : Dataset,
     "sequence" ∈ column_names ds →
     Forall (λ r : row, ∃ seq : list Z, r !! "sequence" = Some (VInts seq))
       (rows ds) →
     ∃ ds', min_length_step min_seq_len ds = Ok ds' ∧
       column_names ds' = column_names ds ∧
       rows ds' = filter (λ r, min_seq_len ≤ Z.of_nat (length (seq_of r)))
                    (rows ds) ∧
       sublist (rows ds') (rows ds) ∧
       (∀ r seq, r ∈ rows ds → r !! "sequence" = Some (VInts seq) →
          r ∈ rows ds' ↔ min_seq_len ≤ Z.of_nat (length seq))) ∧
  (∀ (ds : Dataset) (max_seq_len : Z),
     "sequence" ∈ column_names ds →
     Forall (λ r : row, ∃ seq : list Z, r !! "sequence" = Some (VInts seq))
       (rows ds) →
     (sub_ds ← truncate_step max_seq_len ds;
      min_length_step min_seq_len sub_ds)
     = Ok {| column_names := column_names ds;
             rows :=
               filter (λ r, min_seq_len ≤ Z.of_nat (length (seq_of r)))
                 ((λ r : row,
                     <["sequence" :=
                         VInts (truncate_list (seq_of r) max_seq_len)]> r)
                    <$> rows ds) |}).
Proof.
  split.
  - intros ds Hin Hty. eexists. split; [by apply min_length_step_rows|].
    simpl. split_and!; try done.
    + apply sublist_filter.
    + intros r seq Hr Hseq. rewrite list_elem_of_filter.
      unfold long_enough, seq_of. rewrite Hseq. naive_solver.
  - intros ds max_seq_len Hin Hty.
    rewrite (bind_Ok_l _ _ _ (truncate_step_rows max_seq_len ds Hin Hty)).
    rewrite (min_length_step_rows min_seq_len
               {| column_names := column_names ds;
                  rows := truncate_row max_seq_len <$> rows ds |});
      [done|done|].
    apply Forall_fmap, Forall_forall. intros r _.
    apply truncate_row_has_sequence.
Qed.

#[global] Instance AInt_inj : Inj (=) (=) AInt.
Proof. by intros n m [= ->]. Qed.

Lemma key_of_inj (r r' : row) :
  key_of r = key_of r' ↔ first_terms_of r = first_terms_of r'.
Proof.
  unfold key_of. split; [|by intros ->].
  apply (inj (fmap AInt)).
Qed.

(** C2. The deduplicator ([drop_duplicate_sequence_beginnings],
    src/utils.py): on a dataset with a [sequence_first_terms] column of
    integer lists it returns a dataset with the same schema whose rows are
    the rows of the input at the positions [kept], in their original order,
    where a position is kept iff no earlier row has the same
    [sequence_first_terms]; the retained values are pairwise different, and
    every dropped row has an earlier retained row with the same value. *)
Theorem drop_duplicate_sequence_beginnings_spec (ds : Dataset) :
  "sequence_first_terms" ∈ column_names ds →
  Forall (λ r : row, ∃ l : list Z,
            r !! "sequence_first_terms" = Some (VInts l)) (rows ds) →
  ∃ (ds' : Dataset) (kept : list bool),
    drop_duplicate_sequence_beginnings ds = Ok ds' ∧
    column_names ds' = column_names ds ∧
    length kept = length (rows ds) ∧
    rows ds' = HF.keep_where kept (rows ds) ∧
    sublist (rows ds') (rows ds) ∧
    NoDup (first_terms_of <$> rows ds') ∧
    (∀ i r, rows ds !! i = Some r →
       kept !! i = Some true ↔
       ∀ j r', (j < i)%nat → rows ds !! j = Some r' →
               first_terms_of r' ≠ first_terms_of r) ∧
    (∀ i r, rows ds !! i = Some r → kept !! i = Some false →
       ∃ j r', (j < i)%nat ∧ rows ds !! j = Some r' ∧
               kept !! j = Some true ∧
               first_terms_of r' = first_terms_of r).
Proof.
  intros Hin Hty.
  exists {| column_names := column_names ds;
            rows := HF.keep_where (first_occurrences ∅ (key_of <$> rows ds))
                      (rows ds) |},
         (first_occurrences ∅ (key_of <$> rows ds)).
  split_and!.
  - unfold drop_duplicate_sequence_beginnings, HF.filter_rows.
    rewrite decide_False by auto.
    by rewrite (bind_Ok_l _ _ _
                  (filter_loop_first_occurrences (rows ds) ∅ Hty)).
  - done.
  - by rewrite first_occurrences_length, length_fmap.
  - done.
  - apply keep_where_sublist.
  - simpl. apply (NoDup_fmap_1 (fmap AInt)).
    rewrite <- list_fmap_compose. change (fmap AInt ∘ first_terms_of) with key_of.
    rewrite <- keep_where_fmap.
    apply keep_where_first_occurrences_NoDup.
  - intros i r Hr.
    rewrite (first_occurrences_true ∅ (key_of <$> rows ds) i (key_of r))
      by (by rewrite list_lookup_fmap, Hr).
    split.
    + intros [_ Hfirst] j r' Hj Hr' Heq.
      apply (Hfirst j (key_of r')); [done| |by apply key_of_inj].
      by rewrite list_lookup_fmap, Hr'.
    + intros Hfirst. split; [set_solver|].
      intros j k' Hj Hk' Heq. rewrite list_lookup_fmap in Hk'.
      destruct (rows ds !! j) as [r'|] eqn:Hr'; [|done].
      simpl in Hk'. simplify_eq. apply (Hfirst j r'); [done..|].
      by apply key_of_inj.
  - intros i r Hr Hdrop.
    destruct (first_occurrences_false (key_of <$> rows ds) i (key_of r))
      as (j & Hj & Hk & Hkept); [by rewrite list_lookup_fmap, Hr|done|].
    rewrite list_lookup_fmap in Hk.
    destruct (rows ds !! j) as [r'|] eqn:Hr'; [|done].
    simpl in Hk. exists j, r'. split_and!; [done..|].
    apply key_of_inj. congruence.
Qed.

(** [in] on a list of strings is exact, case-sensitive equality. *)
Example add_easy_flag_exact :
  _add_easy_flag {[ "keywords" := VStrs ["Easy"; "easy "; "uneasy"] ]}
  = Ok [("is_easy", VInt 0)] ∧
  _add_easy_flag {[ "keywords" := VStrs ["nonn"; "easy"] ]}
  = Ok [("is_easy", VInt 1)].
Proof. split; reflexivity. Qed.

(** C5. The flag deriver ([add_is_easy_column], src/utils.py): for a row
    whose [keywords] cell is a list of strings, [_add_easy_flag] returns
    [is_easy = 1] if the string "easy" is an element of the list and
    [is_easy = 0] otherwise; on a dataset with such a [keywords] column,
    every row of the result carries that value. *)
Theorem add_is_easy_column_spec :
  (∀ (r : row) (kws : list string),
     r !! "keywords" = Some (VStrs kws) →
     ∃ is_easy : Z,
       _add_easy_flag r = Ok [("is_easy", VInt is_easy)] ∧
       (is_easy = 1 ↔ "easy" ∈ kws) ∧ (is_easy = 0 ↔ "easy" ∉ kws)) ∧
  (∀ ds : Dataset,
     "keywords" ∈ column_names ds →
     Forall (λ r : row, ∃ kws : list string,
               r !! "keywords" = Some (VStrs kws)) (rows ds) →
     ∃ ds', add_is_easy_column ds = Ok ds' ∧
       Forall2 (λ r r' : row, ∃ (kws : list string) (is_easy : Z),
           r !! "keywords" = Some (VStrs kws) ∧
           r' !! "is_easy" = Some (VInt is_easy) ∧
           (is_easy = 1 ↔ "easy" ∈ kws) ∧ (is_easy = 0 ↔ "easy" ∉ kws))
         (rows ds) (rows ds')).
Proof.
  assert (∀ kws : list string,
            let v := if bool_decide ("easy" ∈ kws) then 1 else 0 in
            (v = 1 ↔ "easy" ∈ kws) ∧ (v = 0 ↔ "easy" ∉ kws)) as Hflag.
  { intros kws. simpl. case_bool_decide; split; split; try done; lia. }
  split.
  - intros r kws Hkws. eexists. split.
    + unfold _add_easy_flag. rewrite Hkws. reflexivity.
    + apply Hflag.
  - intros ds Hin Hty. unfold add_is_easy_column.
    rewrite decide_False by auto.
    destruct (decide (rows ds = [])) as [Hnil|Hrows].
    + exists ds. unfold HF.map_rows. rewrite Hnil. split; [done|constructor].
    + eexists. split.
      * apply (map_rows_pure _
          (λ r, [("is_easy",
                  VInt (if bool_decide ("easy" ∈ keywords_of r)
                        then 1 else 0))]) ds Hrows).
        eapply Forall_impl; [exact Hty|]. apply add_easy_flag_keywords.
      * simpl. apply Forall2_fmap_r, Forall_Forall2_diag.
        eapply Forall_impl; [exact Hty|]. intros r [kws Hkws].
        exists kws, (if bool_decide ("easy" ∈ kws) then 1 else 0).
        split_and!; [done| |apply Hflag..].
        unfold keywords_of. rewrite Hkws. simpl.
        by rewrite lookup_insert_eq.
Qed.

(* ===================================================================== *)
(** ** The whole preparation, steps 2 to 7 *)
(* ===================================================================== *)

Lemma Forall_keep_where {A} (P : A → Prop) (mask : list bool) (l : list A) :
  Forall P l → Forall P (HF.keep_where mask l).
Proof.
  intros Hl. eapply Forall_forall. intros x Hx.
  eapply Forall_forall; [exact Hl|].
  eapply sublist_subseteq; [apply keep_where_sublist|done].
Qed.

Lemma Forall_list_filter {A} (P Q : A → Prop) `{∀ x, Decision (Q x)}
    (l : list A) :
  Forall P l → Forall (λ x, P x ∧ Q x) (filter Q l).
Proof.
  intros Hl. apply Forall_forall. intros x [HQ Hx]%list_elem_of_filter.
  split; [|done]. by eapply Forall_forall.
Qed.

Lemma elem_of_selected (names : list string) (c : string) :
  c ∈ selected names ↔ c ∈ names ∧ c ∈ required_columns.
Proof. unfold selected. by rewrite list_elem_of_filter. Qed.

(** Step 2 never fails: it selects columns that the dataset has. *)
Lemma select_step_rows (ds : Dataset) :
  select_step ds
  = Ok {| column_names := selected (column_names ds);
          rows := selected_rows (column_names ds) (rows ds) |}.
Proof.
  unfold select_step, HF.select_columns. fold (selected (column_names ds)).
  assert (forallb (λ c : string, bool_decide (c ∈ column_names ds))
            (selected (column_names ds)) = true) as ->; [|done].
  apply Is_true_true, forallb_True, Forall_forall.
  intros c [Hc _]%elem_of_selected. by apply bool_decide_pack.
Qed.

(** Where a column is kept, every row is kept, projected. *)
Lemma selected_rows_some (names : list string) (rs : list row) (c : string) :
  c ∈ selected names → selected_rows names rs = project names <$> rs.
Proof.
  unfold selected_rows. destruct (selected names); [|done].
  by intros ?%elem_of_nil.
Qed.

Lemma selected_rows_project (names : list string) (rs : list row) :
  Forall (λ r' : row, ∃ r, r ∈ rs ∧ r' = project names r)
    (selected_rows names rs).
Proof.
  unfold selected_rows. destruct (selected names); [constructor|].
  apply Forall_fmap, Forall_forall. intros r Hr. by exists r.
Qed.

Lemma project_lookup (names : list string) (r : row) (c : string) :
  project names r !! c = if decide (c ∈ selected names) then r !! c else None.
Proof.
  unfold project. case_decide.
  - destruct (r !! c) as [v|] eqn:Hv.
    + by apply map_lookup_filter_Some.
    + apply map_lookup_filter_None. left. done.
  - apply map_lookup_filter_None. right. intros v _. done.
Qed.

Lemma truncate_row_lookup_ne (max_el : Z) (r : row) (c : string) :
  c ≠ "sequence" → truncate_row max_el r !! c = r !! c.
Proof. intros Hc. unfold truncate_row. by rewrite lookup_insert_ne. Qed.

Lemma truncate_row_seq_of (max_el : Z) (r : row) :
  seq_of (truncate_row max_el r) = truncate_list (seq_of r) max_el.
Proof.
  unfold seq_of at 1, truncate_row. by rewrite lookup_insert_eq.
Qed.

Lemma split_row_first_terms (r : row) :
  split_row r !! "sequence_first_terms"
  = Some (VInts (slice_to (seq_of r) (-1))).
Proof.
  unfold split_row. rewrite lookup_delete_ne by done.
  rewrite lookup_insert_ne by done. by rewrite lookup_insert_eq.
Qed.

Lemma split_row_keywords (r : row) :
  split_row r !! "keywords" = r !! "keywords".
Proof.
  unfold split_row. rewrite lookup_delete_ne by done.
  by rewrite !lookup_insert_ne by done.
Qed.

Lemma easy_row_first_terms (r : row) :
  easy_row r !! "sequence_first_terms" = r !! "sequence_first_terms".
Proof.
  unfold easy_row. rewrite lookup_delete_ne by done.
  by rewrite lookup_insert_ne by done.
Qed.

Lemma has_keywords_truncate_row (max_el : Z) (r : row) :
  has_keywords r → has_keywords (truncate_row max_el r).
Proof.
  intros [kws Hkws]. exists kws. by rewrite truncate_row_lookup_ne.
Qed.

Lemma has_keywords_split_row (r : row) :
  has_keywords r → has_keywords (split_row r).
Proof. intros [kws Hkws]. exists kws. by rewrite split_row_keywords. Qed.

Lemma long_enough_nonempty (min_seq_len : Z) (r : row) :
  1 ≤ min_seq_len → long_enough min_seq_len r → seq_of r ≠ [].
Proof.
  unfold long_enough. intros Hmin Hlen Hnil. rewrite Hnil in Hlen.
  simpl in Hlen. lia.
Qed.

(** Step 6 on first terms of the data model. *)
Lemma dedup_step_rows (ds : Dataset) :
  Forall has_first_terms (rows ds) →
  "sequence_first_terms" ∈ column_names ds ∨ rows ds = [] →
  dedup_step ds
  = Ok {| column_names := column_names ds;
          rows := HF.keep_where (first_occurrences ∅ (key_of <$> rows ds))
                    (rows ds) |}.
Proof.
  intros Hty Hcol. unfold dedup_step, drop_duplicate_sequence_beginnings.
  destruct (decide ("sequence_first_terms" ∈ column_names ds)) as [Hin|Hout].
  - rewrite decide_False by auto. unfold HF.filter_rows.
    by rewrite (bind_Ok_l _ _ _
                  (filter_loop_first_occurrences (rows ds) ∅ Hty)).
  - destruct Hcol as [?|Hnil]; [done|]. rewrite Hnil. simpl.
    rewrite <- Hnil. by rewrite dataset_eta.
Qed.

(** Step 7, whether or not the dataset has the [keywords] column. *)
Lemma is_easy_step_cases (ds : Dataset) :
  ("keywords" ∈ column_names ds → Forall has_keywords (rows ds)) →
  ∃ names,
    is_easy_step ds
    = Ok {| column_names := names;
            rows := if decide ("keywords" ∈ column_names ds)
                    then easy_row <$> rows ds else rows ds |}.
Proof.
  intros Hty. destruct (decide ("keywords" ∈ column_names ds)) as [Hin|Hout].
  - eexists. apply is_easy_step_rows; auto.
  - exists (column_names ds). unfold is_easy_step.
    rewrite decide_False by done. by rewrite dataset_eta.
Qed.

Lemma selected_required (names : list string) (c : string) :
  c ∈ selected names → c ∈ required_columns.
Proof. by intros [_ ?]%elem_of_selected. Qed.

Lemma first_terms_not_required :
  "sequence_first_terms" ∉ required_columns.
Proof. apply (bool_decide_unpack _). by vm_compute. Qed.

Lemma split_names_first_terms (names : list string) :
  "sequence_first_terms" ∈ split_names names.
Proof.
  unfold split_names. rewrite list_elem_of_filter. split.
  - rewrite list_elem_of_singleton. done.
  - apply elem_of_extend_names. right. set_solver.
Qed.

Lemma split_names_keywords (names : list string) :
  "keywords" ∈ split_names names ↔ "keywords" ∈ names.
Proof.
  unfold split_names. rewrite list_elem_of_filter, elem_of_extend_names.
  rewrite list_elem_of_singleton. split.
  - intros [_ [?|Hin]]; [done|].
    apply elem_of_cons in Hin as [?|Hin]; [done|].
    apply list_elem_of_singleton in Hin. done.
  - intros ?. split; [done|by left].
Qed.

Lemma filter_names_keywords (names : list string) :
  "keywords" ∈ filter (λ c : string, c ∉ ["sequence"]) names
  ↔ "keywords" ∈ names.
Proof.
  rewrite list_elem_of_filter, list_elem_of_singleton. naive_solver.
Qed.

(** Steps 2 to 5 on a dataset of the data model that has the [sequence]
    column, for a minimum length of at least one. *)
Lemma split_steps_rows (ds : Dataset) (max_seq_len min_seq_len : Z) :
  "sequence" ∈ column_names ds → data_model ds → 1 ≤ min_seq_len →
  ∃ names,
    (sub_ds ← select_step ds;
     sub_ds ← truncate_step max_seq_len sub_ds;
     sub_ds ← min_length_step min_seq_len sub_ds;
     split_step sub_ds)
    = Ok {| column_names := names;
            rows := split_rows max_seq_len min_seq_len
                      (project (column_names ds) <$> rows ds) |} ∧
    ("keywords" ∈ names ↔ "keywords" ∈ column_names ds) ∧
    ("sequence_first_terms" ∈ names ∨
     split_rows max_seq_len min_seq_len
       (project (column_names ds) <$> rows ds) = []).
Proof.
  intros Hin Hmodel Hmin.
  assert ("sequence" ∈ selected (column_names ds)) as Hsel.
  { apply elem_of_selected. split; [done|]. unfold required_columns.
    set_solver. }
  assert (Forall has_sequence (project (column_names ds) <$> rows ds)) as Hty.
  { apply Forall_fmap. eapply Forall_impl; [exact Hmodel|].
    intros r [Hseq _]. destruct (Hseq Hin) as [seq Hr]. exists seq.
    rewrite project_lookup. by rewrite decide_True. }
  rewrite (bind_Ok_l _ _ _ (select_step_rows ds)).
  rewrite (selected_rows_some _ _ _ Hsel).
  rewrite (bind_Ok_l _ _ _
             (truncate_step_rows max_seq_len
                {| column_names := selected (column_names ds);
                   rows := project (column_names ds) <$> rows ds |}
                Hsel Hty)).
  assert (Forall has_sequence
            (truncate_row max_seq_len <$>
               (project (column_names ds) <$> rows ds))) as Hty1.
  { apply Forall_fmap, Forall_forall. intros r _.
    apply truncate_row_has_sequence. }
  rewrite (bind_Ok_l _ _ _
             (min_length_step_rows min_seq_len
                {| column_names := selected (column_names ds);
                   rows := truncate_row max_seq_len <$>
                             (project (column_names ds) <$> rows ds) |}
                Hsel Hty1)).
  pose proof (Forall_list_filter _ (long_enough min_seq_len) _ Hty1) as Hty2.
  eexists. split; [|split].
  - apply split_step_rows; simpl.
    + done.
    + eapply Forall_impl; [exact Hty2|]. by intros r [? _].
    + eapply Forall_impl; [exact Hty2|]. intros r [_ ?].
      by eapply long_enough_nonempty.
  - simpl. case_decide.
    + rewrite filter_names_keywords, elem_of_selected.
      unfold required_columns. set_solver.
    + rewrite split_names_keywords, elem_of_selected.
      unfold required_columns. set_solver.
  - simpl. case_decide as Hnil.
    + right. unfold split_rows. by rewrite Hnil.
    + left. apply split_names_first_terms.
Qed.

(** Each of the steps 3 to 7 is skipped when its column is missing. *)
Lemma truncate_step_skip (max_seq_len : Z) (ds : Dataset) :
  "sequence" ∉ column_names ds → truncate_step max_seq_len ds = Ok ds.
Proof. intros Hout. unfold truncate_step. by rewrite decide_False. Qed.

Lemma min_length_step_skip (min_seq_len : Z) (ds : Dataset) :
  "sequence" ∉ column_names ds → min_length_step min_seq_len ds = Ok ds.
Proof. intros Hout. unfold min_length_step. by rewrite decide_False. Qed.

Lemma split_step_skip (ds : Dataset) :
  "sequence" ∉ column_names ds → split_step ds = Ok ds.
Proof. intros Hout. unfold split_step. by rewrite decide_False. Qed.

Lemma dedup_step_skip (ds : Dataset) :
  "sequence_first_terms" ∉ column_names ds → dedup_step ds = Ok ds.
Proof. intros Hout. unfold dedup_step. by rewrite decide_False. Qed.

Lemma is_easy_step_skip (ds : Dataset) :
  "keywords" ∉ column_names ds → is_easy_step ds = Ok ds.
Proof. intros Hout. unfold is_easy_step. by rewrite decide_False. Qed.

Lemma prepare_assoc (ds : Dataset) (max_seq_len min_seq_len : Z) :
  prepare ds max_seq_len min_seq_len
  = (sub_ds ← select_step ds;
     sub_ds ← truncate_step max_seq_len sub_ds;
     sub_ds ← min_length_step min_seq_len sub_ds;
     split_step sub_ds) ≫= λ sub_ds,
    sub_ds ← dedup_step sub_ds; is_easy_step sub_ds.
Proof.
  unfold prepare.
  destruct (select_step ds) as [ds0|]; [|done]. cbn [mbind result_bind].
  destruct (truncate_step max_seq_len ds0) as [ds1|]; [|done].
  cbn [mbind result_bind].
  destruct (min_length_step min_seq_len ds1) as [ds2|]; [|done].
  done.
Qed.

Lemma has_keywords_project (names : list string) (r : row) :
  "keywords" ∈ names → has_keywords r → has_keywords (project names r).
Proof.
  intros Hin [kws Hkws]. exists kws. rewrite project_lookup.
  rewrite decide_True; [done|].
  apply elem_of_selected. split; [done|]. unfold required_columns. set_solver.
Qed.

(** The preparation of a dataset of the data model that has the [sequence]
    column, for a minimum length of at least one: it does not fail, and its
    rows are those computed by the row-level description of the steps. *)
Lemma prepare_with_sequence (ds : Dataset) (max_seq_len min_seq_len : Z) :
  "sequence" ∈ column_names ds → data_model ds → 1 ≤ min_seq_len →
  ∃ names,
    prepare ds max_seq_len min_seq_len
    = Ok {| column_names := names;
            rows :=
              let rs := sequence_rows max_seq_len min_seq_len
                          (project (column_names ds) <$> rows ds) in
              if decide ("keywords" ∈ column_names ds)
              then easy_row <$> rs else rs |}.
Proof.
  intros Hin Hmodel Hmin. rewrite prepare_assoc.
  destruct (split_steps_rows ds max_seq_len min_seq_len Hin Hmodel Hmin)
    as (names & Heq & Hkw & Hsft).
  rewrite (bind_Ok_l _ _ _ Heq).
  set (rs := split_rows max_seq_len min_seq_len
               (project (column_names ds) <$> rows ds)) in *.
  assert (Forall has_first_terms rs) as Hft.
  { apply Forall_fmap, Forall_forall. intros r _. eexists.
    apply split_row_first_terms. }
  rewrite (bind_Ok_l _ _ _
             (dedup_step_rows {| column_names := names; rows := rs |}
                Hft Hsft)).
  cbn [column_names rows].
  edestruct (is_easy_step_cases
               {| column_names := names;
                  rows := HF.keep_where (first_occurrences ∅ (key_of <$> rs))
                            rs |}) as [names' Heasy].
  { cbn [column_names rows]. intros Hkws%Hkw.
    apply Forall_keep_where, Forall_fmap.
    assert (Forall has_keywords
              (truncate_row max_seq_len <$>
                 (project (column_names ds) <$> rows ds))) as Hall.
    { rewrite <- list_fmap_compose. apply Forall_fmap.
      eapply Forall_impl; [exact Hmodel|]. intros r [_ Hr]. simpl.
      apply has_keywords_truncate_row, has_keywords_project; auto. }
    eapply Forall_impl;
      [exact (Forall_list_filter _ (long_enough min_seq_len) _ Hall)|].
    intros r [Hr _]. by apply has_keywords_split_row. }
  exists names'. rewrite Heasy. cbn [column_names rows].
  unfold sequence_rows. fold rs. cbv zeta.
  destruct (decide ("keywords" ∈ names)), (decide ("keywords" ∈ column_names ds));
    tauto || done.
Qed.

(** The preparation of a dataset of the data model that lacks the
    [sequence] column: steps 3 to 6 are skipped, and nothing fails. *)
Lemma prepare_without_sequence (ds : Dataset) (max_seq_len min_seq_len : Z) :
  "sequence" ∉ column_names ds → data_model ds →
  ∃ names,
    prepare ds max_seq_len min_seq_len
    = Ok {| column_names := names;
            rows :=
              let rs := selected_rows (column_names ds) (rows ds) in
              if decide ("keywords" ∈ column_names ds)
              then easy_row <$> rs else rs |}.
Proof.
  intros Hout Hmodel. unfold prepare.
  rewrite (bind_Ok_l _ _ _ (select_step_rows ds)).
  assert ("sequence" ∉ selected (column_names ds)) as Hsel.
  { by intros [? _]%elem_of_selected. }
  set (ds0 := {| column_names := selected (column_names ds);
                 rows := selected_rows (column_names ds) (rows ds) |}).
  rewrite (bind_Ok_l _ _ _ (truncate_step_skip max_seq_len ds0 Hsel)).
  rewrite (bind_Ok_l _ _ _ (min_length_step_skip min_seq_len ds0 Hsel)).
  rewrite (bind_Ok_l _ _ _ (split_step_skip ds0 Hsel)).
  assert ("sequence_first_terms" ∉ column_names ds0) as Hft.
  { intros Hreq%selected_required. by apply first_terms_not_required. }
  rewrite (bind_Ok_l _ _ ds0 (dedup_step_skip ds0 Hft)).
  subst ds0.
  edestruct (is_easy_step_cases
               {| column_names := selected (column_names ds);
                  rows := selected_rows (column_names ds) (rows ds) |})
    as [names Heasy].
  { cbn [column_names rows]. intros Hkw.
    rewrite (selected_rows_some _ _ _ Hkw).
    apply elem_of_selected in Hkw as [Hkw _].
    apply Forall_fmap. eapply Forall_impl; [exact Hmodel|].
    intros r [_ Hr]. simpl. apply has_keywords_project; auto. }
  exists names. rewrite Heasy. cbn [column_names rows]. cbv zeta.
  destruct (decide ("keywords" ∈ selected (column_names ds))) as [Hs|Hs],
           (decide ("keywords" ∈ column_names ds)) as [Hc|Hc]; try done.
  - by apply elem_of_selected in Hs as [? _].
  - exfalso. apply Hs, elem_of_selected. split; [done|].
    unfold required_columns. set_solver.
Qed.

(* ===================================================================== *)
(** ** The schema through the steps, for any dataset *)
(* ===================================================================== *)

Section schema.
Import HF.

Lemma set_column_grows c vals rs rs' :
  set_column c vals rs = Ok rs' → grows_by [c] rs rs'.
Proof.
  unfold set_column. case_decide as Hlen; [|done]. intros [= <-].
  revert vals Hlen. induction rs as [|r rs IH]; intros [|v vals] Hlen;
    simplify_eq/=; constructor.
  - intros c'. destruct (decide (c = c')) as [->|Hne].
    + right. set_solver.
    + rewrite lookup_insert_ne by done. by left.
  - by apply IH.
Qed.

Lemma update_columns_grows out rs rs' :
  update_columns out rs = Ok rs' → grows_by out.*1 rs rs'.
Proof.
  revert rs. induction out as [|[c vals] out IH]; intros rs; simpl.
  - intros [= <-]. apply Forall_Forall2_diag, Forall_forall. by left.
  - intros (rs1 & Hset & Hrest)%bind_Ok.
    apply set_column_grows in Hset. apply IH in Hrest.
    eapply Forall2_trans; [|exact Hset|exact Hrest].
    intros r r1 r2 H1 H2 c' Hc'. simpl in *.
    destruct (H2 c' Hc') as [Hr1|?]; [|set_solver].
    destruct (H1 c' Hr1); set_solver.
Qed.

Lemma grows_within (new : list string) (ds : Dataset) names rs' :
  within_schema ds → grows_by new (rows ds) rs' →
  (∀ c, c ∈ column_names ds ∨ c ∈ new → c ∈ names) →
  within_schema {| column_names := names; rows := rs' |}.
Proof.
  unfold within_schema, grows_by. intros Hin Hgrow Hnames. simpl.
  induction Hgrow as [|r r' rs rs'' Hr _ IH]; [constructor|].
  apply Forall_cons in Hin as [Hin1 Hin2]. constructor; [|by apply IH].
  intros c Hc. apply Hnames. destruct (Hr c Hc); auto.
Qed.

Lemma map_batched_schema f ds ds' (new : list string) :
  (∀ b out, f b = Ok out → out.*1 = new) →
  map_batched f ds = Ok ds' →
  (∀ c, c ∈ column_names ds' → c ∈ column_names ds ∨ c ∈ new) ∧
  (∀ c, c ∈ column_names ds → c ∈ column_names ds') ∧
  (within_schema ds → within_schema ds').
Proof.
  intros Hnew. unfold map_batched.
  destruct (rows ds) as [|r rs] eqn:Hrows.
  - intros [= <-]. by auto.
  - intros (out & Hf & (rs' & Hup & [= <-])%bind_Ok)%bind_Ok.
    apply update_columns_grows in Hup.
    rewrite (Hnew _ _ Hf) in *. cbn [column_names].
    split_and!.
    + intros c. by rewrite elem_of_extend_names.
    + intros c ?. rewrite elem_of_extend_names. by left.
    + intros Hin. apply (grows_within new ds); [done| |].
      * by rewrite Hrows.
      * intros c. by rewrite elem_of_extend_names.
Qed.

Lemma within_schema_sublist ds rs' :
  within_schema ds → sublist rs' (rows ds) →
  within_schema {| column_names := column_names ds; rows := rs' |}.
Proof.
  unfold within_schema. intros Hin Hsub. simpl.
  rewrite Forall_forall in Hin. apply Forall_forall. intros r Hr.
  apply Hin. by eapply sublist_subseteq.
Qed.

Lemma filter_batched_schema f ds ds' :
  filter_batched f ds = Ok ds' →
  column_names ds' = column_names ds ∧
  sublist (rows ds') (rows ds) ∧
  (within_schema ds → within_schema ds').
Proof.
  unfold filter_batched. destruct (rows ds) as [|r rs] eqn:Hrows.
  - intros [= <-]. by rewrite Hrows.
  - intros (mask & Hf & Hmask)%bind_Ok. case_decide; [|done].
    simplify_eq/=. split_and!; [done|apply keep_where_sublist|].
    intros Hin. apply within_schema_sublist; [done|].
    rewrite Hrows. apply keep_where_sublist.
Qed.

Lemma filter_loop_sublist {S} (f : row → S → result (bool * S)) s rs rs' :
  filter_loop f s rs = Ok rs' → sublist rs' rs.
Proof.
  revert s rs'. induction rs as [|r rs IH]; intros s rs'; simpl.
  - intros [= <-]. constructor.
  - intros ([keep s'] & Hf & (kept & Hloop & [= <-])%bind_Ok)%bind_Ok.
    apply IH in Hloop. destruct keep; by constructor.
Qed.

Lemma filter_rows_schema {S} (f : row → S → result (bool * S)) s ds ds' :
  filter_rows f s ds = Ok ds' →
  column_names ds' = column_names ds ∧
  sublist (rows ds') (rows ds) ∧
  (within_schema ds → within_schema ds').
Proof.
  unfold filter_rows. intros (rs & Hloop & [= <-])%bind_Ok.
  apply filter_loop_sublist in Hloop.
  split_and!; [done..|]. intros Hin. by apply within_schema_sublist.
Qed.

Lemma update_row_lookup (r : row) (out : list (string * value)) c :
  is_Some (update_row r out !! c) → is_Some (r !! c) ∨ c ∈ out.*1.
Proof.
  unfold update_row. revert r.
  induction out as [|[c' v] out IH]; intros r; simpl; [by left|].
  intros [Hr|?]%IH; [|set_solver].
  destruct (decide (c' = c)) as [->|Hne]; [set_solver|].
  rewrite lookup_insert_ne in Hr by done. by left.
Qed.

Lemma traverse_Forall2 {A B} (f : A → result B) l ys :
  traverse f l = Ok ys → Forall2 (λ x y, f x = Ok y) l ys.
Proof.
  revert ys. induction l as [|x l IH]; intros ys; simpl.
  - intros [= <-]. constructor.
  - intros (y & Hy & (ys' & Hys & [= <-])%bind_Ok)%bind_Ok.
    constructor; auto.
Qed.

Lemma zip_update_row_grows (f : row → result (list (string * value)))
    (new : list string) (l : list row) outs :
  (∀ r out, f r = Ok out → out.*1 = new) →
  Forall2 (λ x y, f x = Ok y) l outs →
  grows_by new l (zip_with update_row l outs).
Proof.
  intros Hnew Houts. unfold grows_by.
  induction Houts as [|x out l outs Hx _ IH]; simpl; [constructor|].
  constructor; [|exact IH].
  intros c Hc%update_row_lookup. by rewrite <- (Hnew _ _ Hx).
Qed.

Lemma map_rows_schema f ds ds' (new : list string) :
  (∀ r out, f r = Ok out → out.*1 = new) →
  map_rows f ds = Ok ds' →
  (∀ c, c ∈ column_names ds' → c ∈ column_names ds ∨ c ∈ new) ∧
  (∀ c, c ∈ column_names ds → c ∈ column_names ds') ∧
  (within_schema ds → within_schema ds').
Proof.
  intros Hnew. unfold map_rows.
  destruct (rows ds) as [|r rs] eqn:Hrows.
  - intros [= <-]. by auto.
  - intros (outs & Houts%traverse_Forall2 & [= <-])%bind_Ok.
    cbn [column_names].
    assert ((default [] (head outs)).*1 = new) as ->.
    { inversion Houts as [|? out ? ? Hout]; subst. simpl. by eapply Hnew. }
    split_and!.
    + intros c. by rewrite elem_of_extend_names.
    + intros c ?. rewrite elem_of_extend_names. by left.
    + intros Hin. apply (grows_within new ds); [done| |].
      * rewrite Hrows.
        exact (zip_update_row_grows f new (r :: rs) outs Hnew Houts).
      * intros c. by rewrite elem_of_extend_names.
Qed.

Lemma remove_columns_schema (c : string) ds ds' :
  remove_columns [c] ds = Ok ds' →
  column_names ds'
  = filter (λ c' : string, c' ∉ [c]) (column_names ds) ∧
  (within_schema ds → within_schema ds').
Proof.
  unfold remove_columns. destruct (forallb _ _); [|done].
  intros [= <-]. split; [done|].
  unfold within_schema. simpl. intros Hin.
  apply Forall_fmap. eapply Forall_impl; [exact Hin|].
  intros r Hr c' Hc'. simpl in Hc'.
  destruct (decide (c = c')) as [->|Hne].
  - rewrite lookup_delete_eq in Hc'. by destruct Hc'.
  - rewrite lookup_delete_ne in Hc' by done.
    rewrite list_elem_of_filter, list_elem_of_singleton. auto.
Qed.

End schema.

Lemma truncate_sequence_names (max_el : Z) (b : batch) out :
  truncate_sequence b max_el = Ok out → out.*1 = ["sequence"].
Proof.
  unfold truncate_sequence.
  by intros (seqs & _ & (trunc & _ & [= <-])%bind_Ok)%bind_Ok.
Qed.

Lemma extract_next_term_names (b : batch) out :
  extract_next_term b = Ok out →
  out.*1 = ["sequence_first_terms"; "sequence_next_term"].
Proof.
  unfold extract_next_term.
  by intros (seqs & _ & ([l1 l2] & _ & [= <-])%bind_Ok)%bind_Ok.
Qed.

Lemma add_easy_flag_names (r : row) out :
  _add_easy_flag r = Ok out → out.*1 = ["is_easy"].
Proof.
  unfold _add_easy_flag. by intros (easy & _ & [= <-])%bind_Ok.
Qed.

Lemma select_step_schema (ds ds' : Dataset) :
  select_step ds = Ok ds' →
  column_names ds' = selected (column_names ds) ∧ within_schema ds'.
Proof.
  rewrite select_step_rows. intros [= <-]. split; [done|].
  unfold within_schema. cbn [column_names rows].
  eapply Forall_impl; [apply selected_rows_project|].
  intros r' (r & _ & ->) c. rewrite project_lookup.
  case_decide; [done|]. by intros [? ?].
Qed.

Lemma truncate_step_schema (max_seq_len : Z) (ds ds' : Dataset) :
  truncate_step max_seq_len ds = Ok ds' →
  (∀ c, c ∈ column_names ds' ↔ c ∈ column_names ds) ∧
  (within_schema ds → within_schema ds').
Proof.
  unfold truncate_step. case_decide as Hseq; [|by intros [= <-]].
  intros (Hnew & Hold & Hin)%(map_batched_schema _ _ _ ["sequence"]).
  - split; [|done]. intros c. split; [|by auto].
    intros [?|Hc%list_elem_of_singleton]%Hnew; by subst.
  - intros b out. apply truncate_sequence_names.
Qed.

Lemma min_length_step_schema (min_seq_len : Z) (ds ds' : Dataset) :
  min_length_step min_seq_len ds = Ok ds' →
  column_names ds' = column_names ds ∧
  (within_schema ds → within_schema ds').
Proof.
  unfold min_length_step. case_decide as Hseq; [|by intros [= <-]].
  by intros (? & _ & ?)%filter_batched_schema.
Qed.

Lemma split_step_schema (ds ds' : Dataset) :
  split_step ds = Ok ds' →
  "sequence" ∉ column_names ds' ∧
  (∀ c, c ∈ column_names ds' →
        c ∈ column_names ds ∨
        c ∈ ["sequence_first_terms"; "sequence_next_term"]) ∧
  (within_schema ds → within_schema ds').
Proof.
  unfold split_step. case_decide as Hseq; [|intros [= <-]; by auto].
  intros (ds1 & Hmap & [Hrem Hin']%remove_columns_schema)%bind_Ok.
  apply (map_batched_schema _ _ _
           ["sequence_first_terms"; "sequence_next_term"]) in Hmap
    as (Hnew & _ & Hin); [|intros b out; apply extract_next_term_names].
  split_and!.
  - rewrite Hrem. apply not_elem_of_filter_singleton.
  - intros c. rewrite Hrem, list_elem_of_filter. intros [_ ?]. auto.
  - auto.
Qed.

Lemma dedup_step_schema (ds ds' : Dataset) :
  dedup_step ds = Ok ds' →
  column_names ds' = column_names ds ∧
  (within_schema ds → within_schema ds').
Proof.
  unfold dedup_step, drop_duplicate_sequence_beginnings.
  case_decide; [|by intros [= <-]]. case_decide; [by intros [= <-]|].
  by intros (? & _ & ?)%filter_rows_schema.
Qed.

Lemma is_easy_step_schema (ds ds' : Dataset) :
  is_easy_step ds = Ok ds' →
  "keywords" ∉ column_names ds' ∧
  (∀ c, c ∈ column_names ds' →
        c ∈ column_names ds ∨
        (c = "is_easy" ∧ "keywords" ∈ column_names ds)) ∧
  (within_schema ds → within_schema ds').
Proof.
  unfold is_easy_step, add_is_easy_column.
  case_decide as Hkw; [|intros [= <-]; by auto]. rewrite decide_False by auto.
  intros (ds1 & Hmap & [Hrem Hin']%remove_columns_schema)%bind_Ok.
  apply (map_rows_schema _ _ _ ["is_easy"]) in Hmap
    as (Hnew & _ & Hin); [|apply add_easy_flag_names].
  split_and!.
  - rewrite Hrem. apply not_elem_of_filter_singleton.
  - intros c. rewrite Hrem, list_elem_of_filter.
    intros [_ [?|Hc%list_elem_of_singleton]%Hnew]; auto.
  - auto.
Qed.

(** The columns of a completed preparation: selected columns of the input,
    the two columns of the split, and [is_easy] if the input has
    [keywords]. *)
Lemma prepare_names (ds out : Dataset) (max_seq_len min_seq_len : Z) :
  prepare ds max_seq_len min_seq_len = Ok out →
  ∀ c, c ∈ column_names out →
       c ∈ selected (column_names ds) ∨
       c ∈ ["sequence_first_terms"; "sequence_next_term"] ∨
       (c = "is_easy" ∧ "keywords" ∈ column_names ds).
Proof.
  unfold prepare.
  intros (ds0 & [Hcol0 _]%select_step_schema &
          (ds1 & [Hcol1 _]%truncate_step_schema &
           (ds2 & [Hcol2 _]%min_length_step_schema &
            (ds3 & (_ & Hcol3 & _)%split_step_schema &
             (ds4 & [Hcol4 _]%dedup_step_schema &
              (_ & Hcol5 & _)%is_easy_step_schema
             )%bind_Ok)%bind_Ok)%bind_Ok)%bind_Ok)%bind_Ok.
  assert (∀ c, c ∈ column_names ds4 →
               c ∈ selected (column_names ds) ∨
               c ∈ ["sequence_first_terms"; "sequence_next_term"]) as H4.
  { intros c. rewrite Hcol4. intros [Hc|?]%Hcol3; [|by right].
    left. rewrite Hcol2 in Hc. apply Hcol1 in Hc. by rewrite Hcol0 in Hc. }
  intros c [Hc|[-> Hkw]]%Hcol5.
  - destruct (H4 c Hc); auto.
  - right. right. split; [done|].
    destruct (H4 _ Hkw) as [[? _]%elem_of_selected|Hbad]; [done|].
    apply elem_of_cons in Hbad as [?|Hbad]; [done|].
    by apply list_elem_of_singleton in Hbad.
Qed.

(** Whatever the dataset, a preparation that completes hands over a dataset
    without [sequence] and without [keywords], in the schema and in the
    rows. *)
Lemma prepare_schema (ds out : Dataset) (max_seq_len min_seq_len : Z) :
  prepare ds max_seq_len min_seq_len = Ok out →
  "sequence" ∉ column_names out ∧ "keywords" ∉ column_names out ∧
  within_schema out.
Proof.
  unfold prepare.
  intros (ds0 & [_ Hin0]%select_step_schema &
          (ds1 & [_ Hin1]%truncate_step_schema &
           (ds2 & [_ Hin2]%min_length_step_schema &
            (ds3 & (Hseq3 & _ & Hin3)%split_step_schema &
             (ds4 & [Hcol4 Hin4]%dedup_step_schema &
              (Hkw & Hseq5 & Hin5)%is_easy_step_schema
             )%bind_Ok)%bind_Ok)%bind_Ok)%bind_Ok)%bind_Ok.
  split_and!; [|done|exact (Hin5 (Hin4 (Hin3 (Hin2 (Hin1 Hin0)))))].
  intros [Hseq|[? _]]%Hseq5; [|done]. rewrite Hcol4 in Hseq. done.
Qed.

(** On the data model, with a minimum length of at least one, the
    preparation completes. *)
Lemma prepare_completes (ds : Dataset) (max_seq_len min_seq_len : Z) :
  data_model ds → 1 ≤ min_seq_len →
  ∃ out, prepare ds max_seq_len min_seq_len = Ok out.
Proof.
  intros Hmodel Hmin.
  destruct (decide ("sequence" ∈ column_names ds)) as [Hin|Hout].
  - destruct (prepare_with_sequence ds max_seq_len min_seq_len Hin Hmodel Hmin)
      as [names Heq]. eauto.
  - destruct (prepare_without_sequence ds max_seq_len min_seq_len Hout Hmodel)
      as [names Heq]. eauto.
Qed.

Lemma save_step_written (env : environment) (sub_ds : Dataset)
    (output_file_name : string) :
  written (save_step env sub_ds output_file_name).2 ⊆ [sub_ds].
Proof.
  unfold save_step. destruct (mkdir_parent env output_file_name); simpl.
  - set_solver.
  - apply list_subseteq_nil.
Qed.

(** A run hands to the writer nothing but the result of the preparation
    of the loaded dataset. *)
Lemma process_written (env : environment) (dataset_name : string)
    (max_seq_len min_seq_len : Z) (output_file_name : string)
    (out : Dataset) :
  out ∈ written (process_oeis_dataset env dataset_name max_seq_len
                   min_seq_len output_file_name).2 →
  ∃ ds, load_step env dataset_name = Ok (Some ds) ∧
        prepare ds max_seq_len min_seq_len = Ok out.
Proof.
  unfold process_oeis_dataset.
  destruct (load_step env dataset_name) as [[ds|]|];
    try (by intros ?%elem_of_nil).
  destruct (prepare ds max_seq_len min_seq_len) as [sub_ds|] eqn:Hprep;
    try (by intros ?%elem_of_nil).
  pose proof (save_step_written env sub_ds output_file_name) as Hsub.
  destruct (save_step env sub_ds output_file_name) as [[[]|] calls];
    simpl in *; intros Hin%Hsub%list_elem_of_singleton; subst; eauto.
Qed.

(** C6. The dataset handed to the writer has neither a [sequence] nor a
    [keywords] column: whenever steps 2 to 7 complete on a loaded dataset,
    the schema of the result lacks both names and no row of it has a cell
    under either; the same holds for the dataset of a saved run.  On a
    dataset of the data model, with [min_seq_len >= 1], the steps do
    complete. *)
Theorem final_schema (ds : Dataset) (max_seq_len min_seq_len : Z) :
  (∀ out, prepare ds max_seq_len min_seq_len = Ok out →
     "sequence" ∉ column_names out ∧ "keywords" ∉ column_names out ∧
     Forall (λ r : row, r !! "sequence" = None ∧ r !! "keywords" = None)
       (rows out)) ∧
  (∀ env dataset_name output_file_name out,
     out ∈ written (process_oeis_dataset env dataset_name max_seq_len
                      min_seq_len output_file_name).2 →
     "sequence" ∉ column_names out ∧ "keywords" ∉ column_names out) ∧
  (data_model ds → 1 ≤ min_seq_len →
   ∃ out, prepare ds max_seq_len min_seq_len = Ok out).
Proof.
  split_and!.
  - intros out (Hseq & Hkw & Hin)%prepare_schema. split_and!; [done..|].
    eapply Forall_impl; [exact Hin|]. intros r Hr. simpl in Hr.
    split; apply eq_None_not_Some; intros ?%Hr; done.
  - intros env name file out (ds' & Hload' & Hprep)%process_written.
    apply prepare_schema in Hprep as (? & ? & _). done.
  - apply prepare_completes.
Qed.

(** C8. The worked example: three rows, [max_seq_len = 8],
    [min_seq_len = 8].  Truncation cuts rows 1 and 2 to [1..8]; the length
    filter removes row 3; after the split rows 1 and 2 have the same first
    terms, and the deduplicator removes row 2; the dataset handed to the
    writer is the single row with first terms [1..7], next term 8 and
    [is_easy = 1]. *)
Theorem worked_example :
  (select_step example_dataset ≫= truncate_step 8) = Ok example_truncated ∧
  min_length_step 8 example_truncated = Ok example_filtered ∧
  split_step example_filtered = Ok example_split ∧
  dedup_step example_split = Ok example_deduplicated ∧
  is_easy_step example_deduplicated = Ok example_output ∧
  prepare example_dataset 8 8 = Ok example_output ∧
  rows example_output
  = [ {[ "sequence_first_terms" := VInts [1; 2; 3; 4; 5; 6; 7];
         "sequence_next_term" := VInt 8;
         "is_easy" := VInt 1 ]} ] ∧
  process_oeis_dataset example_env "christopher/oeis" 8 8
    "oeis_benchmark.parquet"
  = (Ok (), [Load "christopher/oeis";
             MkdirParent "oeis_benchmark.parquet";
             ToParquet example_output "oeis_benchmark.parquet"]).
Proof. split_and!; by vm_compute. Qed.

(** C9. Failures at the two boundaries are caught inside
    [process_oeis_dataset]: when [load_dataset] raises, when it returns
    neither a dataset nor a dictionary of splits, or a dictionary without a
    [train] split, the function returns having called nothing but the
    loader, so no file is written; when creating the directory or writing
    the file raises, the function returns all the same. *)
Theorem failures_are_caught (env : environment) (dataset_name : string)
    (max_seq_len min_seq_len : Z) (output_file_name : string) :
  let run := process_oeis_dataset env dataset_name max_seq_len min_seq_len
               output_file_name in
  (∀ e, load_dataset env dataset_name = Raise e →
        run = (Ok (), [Load dataset_name])) ∧
  (load_dataset env dataset_name = Ok LoadedOther →
   run = (Ok (), [Load dataset_name])) ∧
  (∀ splits, load_dataset env dataset_name = Ok (LoadedDatasetDict splits) →
             splits !! "train" = None →
             run = (Ok (), [Load dataset_name])) ∧
  (∀ ds sub_ds e,
     load_step env dataset_name = Ok (Some ds) →
     prepare ds max_seq_len min_seq_len = Ok sub_ds →
     mkdir_parent env output_file_name = Raise e →
     run = (Ok (), [Load dataset_name; MkdirParent output_file_name])) ∧
  (∀ ds sub_ds e,
     load_step env dataset_name = Ok (Some ds) →
     prepare ds max_seq_len min_seq_len = Ok sub_ds →
     mkdir_parent env output_file_name = Ok () →
     to_parquet env sub_ds output_file_name = Raise e →
     run = (Ok (), [Load dataset_name; MkdirParent output_file_name;
                    ToParquet sub_ds output_file_name])).
Proof.
  unfold process_oeis_dataset, load_step, save_step. cbv zeta. split_and!.
  - by intros e ->.
  - by intros ->.
  - intros splits -> Htrain. unfold getitem. simpl. by rewrite Htrain.
  - intros ds sub_ds e Hload Hprep Hmk.
    unfold load_step in Hload. rewrite Hload, Hprep, Hmk. done.
  - intros ds sub_ds e Hload Hprep Hmk Hwrite.
    unfold load_step in Hload. rewrite Hload, Hprep, Hmk, Hwrite. done.
Qed.

(** An exception raised between the two boundaries is not caught: with
    [min_seq_len = 0] an empty sequence reaches [seq[-1]]. *)
Example index_error_reaches_caller :
  process_oeis_dataset
    {| load_dataset := λ _, Ok (LoadedDataset
         {| column_names := ["sequence"];
            rows := [ {[ "sequence" := VInts [] ]} ] |});
       mkdir_parent := λ _, Ok ();
       to_parquet := λ _ _, Ok () |}
    "christopher/oeis" 20 0 "oeis_benchmark.parquet"
  = (Raise IndexError, [Load "christopher/oeis"]).
Proof. by vm_compute. Qed.

Lemma truncate_list_length (seq : list Z) (max_el : Z) :
  0 ≤ max_el → Z.of_nat (length (truncate_list seq max_el)) ≤ max_el.
Proof.
  intros H0. unfold truncate_list.
  destruct (Z.gtb_spec (Z.of_nat (length seq)) max_el); [|lia].
  rewrite slice_to_nonneg by done. rewrite length_take. lia.
Qed.

Lemma slice_to_minus_one_length {A} (l : list A) :
  l ≠ [] → Z.of_nat (length (slice_to l (-1))) = Z.of_nat (length l) - 1.
Proof.
  intros Hne. rewrite slice_to_neg by lia. rewrite length_take.
  destruct l; [done|]. simpl. lia.
Qed.

(** The rows that leave step 5 carry first terms within the bounds. *)
Lemma split_rows_bounds (max_seq_len min_seq_len : Z) (rs : list row) :
  1 ≤ min_seq_len → 0 ≤ max_seq_len →
  Forall (λ r : row, ∃ l : list Z,
            r !! "sequence_first_terms" = Some (VInts l) ∧
            min_seq_len - 1 ≤ Z.of_nat (length l) ≤ max_seq_len - 1)
    (split_rows max_seq_len min_seq_len rs).
Proof.
  intros Hmin Hmax. unfold split_rows.
  apply Forall_fmap, Forall_forall.
  intros r [Hlong [r0 [-> _]]%list_elem_of_fmap]%list_elem_of_filter.
  exists (slice_to (seq_of (truncate_row max_seq_len r0)) (-1)).
  split; [apply split_row_first_terms|].
  rewrite slice_to_minus_one_length by (by eapply long_enough_nonempty).
  unfold long_enough in Hlong. rewrite truncate_row_seq_of in *.
  pose proof (truncate_list_length (seq_of r0) max_seq_len Hmax). lia.
Qed.

(** The upper bound needs a bound that is not negative: with
    [max_seq_len = -1] the truncation is [seq[:-1]]. *)
Example negative_bound_drops_from_the_end :
  prepare {| column_names := ["sequence"];
             rows := [ {[ "sequence" := VInts [1; 2; 3] ]} ] |} (-1) 1
  = Ok {| column_names := ["sequence_first_terms"; "sequence_next_term"];
          rows := [ {[ "sequence_first_terms" := VInts [1];
                       "sequence_next_term" := VInt 2 ]} ] |}.
Proof. by vm_compute. Qed.

(** C10, as amended.  On a dataset of the data model that has the
    [sequence] column, with [1 <= min_seq_len] and [0 <= max_seq_len], the
    preparation completes and every row of its result has
    [min_seq_len - 1 <= len(sequence_first_terms) <= max_seq_len - 1].
    Without [0 <= max_seq_len] the upper bound fails: a negative maximum
    makes the truncation [seq[:max_seq_len]] drop elements from the end
    instead of keeping at most [max_seq_len] of them. *)
Theorem first_terms_length_bounds (ds : Dataset)
    (max_seq_len min_seq_len : Z) :
  "sequence" ∈ column_names ds → data_model ds →
  1 ≤ min_seq_len → 0 ≤ max_seq_len →
  ∃ out, prepare ds max_seq_len min_seq_len = Ok out ∧
    Forall (λ r : row, ∃ first_terms : list Z,
              r !! "sequence_first_terms" = Some (VInts first_terms) ∧
              min_seq_len - 1 ≤ Z.of_nat (length first_terms)
                              ≤ max_seq_len - 1)
      (rows out).
Proof.
  intros Hin Hmodel Hmin Hmax.
  destruct (prepare_with_sequence ds max_seq_len min_seq_len Hin Hmodel Hmin)
    as [names Heq].
  eexists. split; [exact Heq|]. cbn [rows]. cbv zeta.
  pose proof (Forall_keep_where _
    (first_occurrences ∅ (key_of <$>
       split_rows max_seq_len min_seq_len
         (project (column_names ds) <$> rows ds))) _
    (split_rows_bounds max_seq_len min_seq_len
       (project (column_names ds) <$> rows ds) Hmin Hmax)) as Hkept.
  fold (sequence_rows max_seq_len min_seq_len
          (project (column_names ds) <$> rows ds)) in Hkept.
  case_decide; [|done].
  apply Forall_fmap. eapply Forall_impl; [exact Hkept|].
  intros r (l & Hl & Hlen). exists l. simpl.
  by rewrite easy_row_first_terms.
Qed.

(** When the preparation completes, the run hands its result to the writer
    and returns. *)
Lemma process_completes (env : environment) (dataset_name : string)
    (max_seq_len min_seq_len : Z) (output_file_name : string)
    (ds out : Dataset) :
  load_step env dataset_name = Ok (Some ds) →
  prepare ds max_seq_len min_seq_len = Ok out →
  process_oeis_dataset env dataset_name max_seq_len min_seq_len
    output_file_name
  = (Ok (), Load dataset_name :: (save_step env out output_file_name).2).
Proof.
  intros Hload Hprep. unfold process_oeis_dataset. rewrite Hload, Hprep.
  by destruct (save_step env out output_file_name) as [[[]|] calls].
Qed.

(** C7. Missing columns degrade gracefully.  Without the [sequence]
    column, the truncation, minimum-length and split steps return the
    dataset unchanged; without [sequence_first_terms] the deduplicator
    returns its input; without [keywords] the flag derivation returns its
    input, so no [is_easy] column appears.  In each case nothing is raised:
    on a dataset of the data model the preparation completes (for any
    configuration when [sequence] is missing, for [min_seq_len >= 1]
    otherwise) and the run goes on to the writer and returns. *)
Theorem missing_columns_degrade (ds : Dataset) (max_seq_len min_seq_len : Z) :
  ("sequence" ∉ column_names ds →
     truncate_step max_seq_len ds = Ok ds ∧
     min_length_step min_seq_len ds = Ok ds ∧
     split_step ds = Ok ds) ∧
  ("sequence_first_terms" ∉ column_names ds →
     drop_duplicate_sequence_beginnings ds = Ok ds ∧
     dedup_step ds = Ok ds) ∧
  ("keywords" ∉ column_names ds →
     add_is_easy_column ds = Ok ds ∧ is_easy_step ds = Ok ds) ∧
  (data_model ds →
   "sequence" ∉ column_names ds ∨ 1 ≤ min_seq_len →
   ∃ out,
     prepare ds max_seq_len min_seq_len = Ok out ∧
     ("keywords" ∉ column_names ds → "is_easy" ∉ column_names out) ∧
     ∀ env dataset_name output_file_name,
       load_step env dataset_name = Ok (Some ds) →
       process_oeis_dataset env dataset_name max_seq_len min_seq_len
         output_file_name
       = (Ok (),
          Load dataset_name :: (save_step env out output_file_name).2)).
Proof.
  split_and!.
  - intros Hout. split_and!.
    + by apply truncate_step_skip.
    + by apply min_length_step_skip.
    + by apply split_step_skip.
  - intros Hout. split; [|by apply dedup_step_skip].
    unfold drop_duplicate_sequence_beginnings. by rewrite decide_True.
  - intros Hout. split; [|by apply is_easy_step_skip].
    unfold add_is_easy_column. by rewrite decide_True.
  - intros Hmodel Hcase.
    assert (∃ out, prepare ds max_seq_len min_seq_len = Ok out)
      as [out Hprep].
    { destruct Hcase as [Hout|Hmin].
      - destruct (prepare_without_sequence ds max_seq_len min_seq_len
                    Hout Hmodel) as [names Heq]. eauto.
      - by apply prepare_completes. }
    exists out. split_and!; [done| |].
    + intros Hkw Heasy.
      destruct (prepare_names ds out max_seq_len min_seq_len Hprep _ Heasy)
        as [Hsel%selected_required|[Hsplit|[_ ?]]]; [| |done].
      * revert Hsel. apply (bool_decide_unpack _). by vm_compute.
      * revert Hsplit. apply (bool_decide_unpack _). by vm_compute.
    + intros env name file Hload. by apply (process_completes _ _ _ _ _ ds).
Qed.

(* ===================================================================== *)
(** ** The theorems at concrete inputs *)
(* ===================================================================== *)

Lemma truncate_sequence_spec_witness :
  0 ≤ 8 ∧
  truncate_one (VInts [1; 2; 3; 4; 5; 6; 7; 8; 9]) 8
  = Ok (VInts [1; 2; 3; 4; 5; 6; 7; 8]).
Proof.
  assert (0 ≤ 8) as H0 by lia. split; [exact H0|].
  apply (proj1 (truncate_sequence_spec 8 H0) [1; 2; 3; 4; 5; 6; 7; 8; 9]).
  simpl. lia.
Defined.

Lemma split_step_spec_witness :
  ∃ ds', split_step example_filtered = Ok ds' ∧
    "sequence" ∉ column_names ds' ∧
    Forall2 (λ r r' : row, ∃ (seq first_terms : list Z) (next_term : Z),
        r !! "sequence" = Some (VInts seq) ∧
        r' !! "sequence_first_terms" = Some (VInts first_terms) ∧
        r' !! "sequence_next_term" = Some (VInt next_term) ∧
        last seq = Some next_term ∧
        first_terms = take (length seq - 1) seq ∧
        first_terms ++ [next_term] = seq ∧
        r' !! "sequence" = None)
      (rows example_filtered) (rows ds').
Proof.
  apply (proj2 split_step_spec example_filtered).
  - apply (bool_decide_unpack _). vm_compute. exact I.
  - simpl.
    repeat (apply Forall_cons; split;
            [eexists; split; [vm_compute; reflexivity|done]|]).
    apply Forall_nil. exact I.
Defined.

Lemma drop_duplicate_sequence_beginnings_spec_witness :
  ∃ (ds' : Dataset) (kept : list bool),
    drop_duplicate_sequence_beginnings example_split = Ok ds' ∧
    column_names ds' = column_names example_split ∧
    length kept = length (rows example_split) ∧
    rows ds' = HF.keep_where kept (rows example_split) ∧
    sublist (rows ds') (rows example_split) ∧
    NoDup (first_terms_of <$> rows ds') ∧
    (∀ i r, rows example_split !! i = Some r →
       kept !! i = Some true ↔
       ∀ j r', (j < i)%nat → rows example_split !! j = Some r' →
               first_terms_of r' ≠ first_terms_of r) ∧
    (∀ i r, rows example_split !! i = Some r → kept !! i = Some false →
       ∃ j r', (j < i)%nat ∧ rows example_split !! j = Some r' ∧
               kept !! j = Some true ∧
               first_terms_of r' = first_terms_of r).
Proof.
  apply (drop_duplicate_sequence_beginnings_spec example_split).
  - apply (bool_decide_unpack _). vm_compute. exact I.
  - simpl.
    repeat (apply Forall_cons; split; [eexists; vm_compute; reflexivity|]).
    apply Forall_nil. exact I.
Defined.

Lemma min_length_step_spec_witness :
  ∃ ds', min_length_step 8 example_truncated = Ok ds' ∧
    column_names ds' = column_names example_truncated ∧
    rows ds' = filter (λ r, 8 ≤ Z.of_nat (length (seq_of r)))
                 (rows example_truncated) ∧
    sublist (rows ds') (rows example_truncated) ∧
    (∀ r seq, r ∈ rows example_truncated →
       r !! "sequence" = Some (VInts seq) →
       r ∈ rows ds' ↔ 8 ≤ Z.of_nat (length seq)).
Proof.
  apply (proj1 (min_length_step_spec 8) example_truncated).
  - apply (bool_decide_unpack _). vm_compute. exact I.
  - simpl.
    repeat (apply Forall_cons; split; [eexists; vm_compute; reflexivity|]).
    apply Forall_nil. exact I.
Defined.

Lemma add_is_easy_column_spec_witness :
  ∃ is_easy : Z,
    _add_easy_flag {[ "keywords" := VStrs ["nonn"; "easy"] ]}
    = Ok [("is_easy", VInt is_easy)] ∧
    (is_easy = 1 ↔ "easy" ∈ ["nonn"; "easy"]) ∧
    (is_easy = 0 ↔ "easy" ∉ ["nonn"; "easy"]).
Proof.
  apply (proj1 add_is_easy_column_spec
           {[ "keywords" := VStrs ["nonn"; "easy"] ]} ["nonn"; "easy"]).
  vm_compute. reflexivity.
Defined.

Lemma example_data_model : data_model example_dataset.
Proof.
  unfold data_model. simpl.
  repeat (apply Forall_cons; split;
          [split; intros _; eexists; vm_compute; reflexivity|]).
  apply Forall_nil. exact I.
Defined.

Lemma final_schema_witness :
  "sequence" ∉ column_names example_output ∧
  "keywords" ∉ column_names example_output ∧
  Forall (λ r : row, r !! "sequence" = None ∧ r !! "keywords" = None)
    (rows example_output).
Proof.
  apply (proj1 (final_schema example_dataset 8 8) example_output).
  vm_compute. reflexivity.
Defined.

Lemma missing_columns_degrade_witness :
  "sequence" ∉ column_names names_only ∧
  truncate_step 20 names_only = Ok names_only ∧
  min_length_step 8 names_only = Ok names_only ∧
  split_step names_only = Ok names_only.
Proof.
  assert ("sequence" ∉ column_names names_only) as Hout.
  { apply (bool_decide_unpack _). vm_compute. exact I. }
  split; [exact Hout|].
  apply (proj1 (missing_columns_degrade names_only 20 8) Hout).
Defined.

Lemma failures_are_caught_witness :
  process_oeis_dataset unreachable_env "christopher/oeis" 20 8
    "oeis_benchmark.parquet"
  = (Ok (), [Load "christopher/oeis"]).
Proof.
  apply (proj1 (failures_are_caught unreachable_env "christopher/oeis" 20 8
                  "oeis_benchmark.parquet") OSError).
  reflexivity.
Defined.

(** C10 as first stated, for every configuration with
    [1 <= min_seq_len], is false at [max_seq_len = -1], [min_seq_len = 1]
    and the single sequence [1, 2, 3]: the truncation leaves [1, 2], the
    filter keeps it, the split gives the first terms [1], and
    [len([1]) = 1] is not at most [max_seq_len - 1 = -2]. *)
Lemma first_terms_length_bounds_counterexample :
  "sequence" ∈ column_names three_terms ∧ data_model three_terms ∧ 1 ≤ 1 ∧
  ∃ out, prepare three_terms (-1) 1 = Ok out ∧
    ¬ Forall (λ r : row, ∃ first_terms : list Z,
                r !! "sequence_first_terms" = Some (VInts first_terms) ∧
                1 - 1 ≤ Z.of_nat (length first_terms) ≤ -1 - 1)
        (rows out).
Proof.
  split_and!.
  - apply (bool_decide_unpack _). by vm_compute.
  - unfold data_model. simpl. apply Forall_cons. split; [|constructor].
    split.
    + intros _. by exists [1; 2; 3].
    + intros Hkw. exfalso. revert Hkw.
      apply (bool_decide_unpack _). by vm_compute.
  - lia.
  - eexists. split; [by vm_compute|].
    intros Hall. apply Forall_cons in Hall as [(l & Hl & Hlen) _].
    vm_compute in Hl. injection Hl as <-. simpl in Hlen. lia.
Qed.

Lemma first_terms_length_bounds_witness :
  ∃ out, prepare example_dataset 8 8 = Ok out ∧
    Forall (λ r : row, ∃ first_terms : list Z,
              r !! "sequence_first_terms" = Some (VInts first_terms) ∧
              8 - 1 ≤ Z.of_nat (length first_terms) ≤ 8 - 1)
      (rows out).
Proof.
  apply (first_terms_length_bounds example_dataset 8 8).
  - apply (bool_decide_unpack _). vm_compute. exact I.
  - exact example_data_model.
  - lia.
  - lia.
Defined.

(* ===================================================================== *)
(** ** Further properties of src/utils.py *)
(* ===================================================================== *)

Lemma traverse_same_length {A B} (f : A → result B) (l : list A)
    (ys : list B) :
  traverse f l = Ok ys → length ys = length l.
Proof.
  intros Hl%traverse_Forall2. symmetry. by eapply Forall2_length.
Qed.

Lemma extract_loop_length (seqs acc1 acc2 out1 out2 : list value) :
  extract_loop seqs acc1 acc2 = Ok (out1, out2) →
  length out1 = (length acc1 + length seqs)%nat ∧
  length out2 = (length acc2 + length seqs)%nat.
Proof.
  revert acc1 acc2. induction seqs as [|seq seqs IH]; intros acc1 acc2.
  - simpl. intros [= <- <-]. lia.
  - cbn [extract_loop].
    intros (next_term & _ & (beginning & _ & Hrest)%bind_Ok)%bind_Ok.
    apply IH in Hrest as [-> ->]. rewrite !length_app. simpl. lia.
Qed.

Lemma truncate_list_nonneg (seq : list Z) (max_el : Z) :
  0 ≤ max_el → truncate_list seq max_el = take (Z.to_nat max_el) seq.
Proof.
  intros H0. unfold truncate_list.
  destruct (Z.gtb_spec (Z.of_nat (length seq)) max_el).
  - by apply slice_to_nonneg.
  - rewrite take_ge; [done|lia].
Qed.

(** X1. Truncation never changes or reorders elements: for every integer
    sequence and every [max_el], negative ones included, the result of
    [seq[:max_el] if len(seq) > max_el else seq] is a prefix of [seq].  Its
    length is [min(len(seq), max_el)] for [max_el >= 0] and
    [max(0, len(seq) + max_el)] for [max_el < 0], where Python's slice
    counts from the end. *)
Theorem truncate_one_prefix (seq : list Z) (max_el : Z) :
  ∃ seq' : list Z,
    truncate_one (VInts seq) max_el = Ok (VInts seq') ∧
    seq' `prefix_of` seq ∧
    Z.of_nat (length seq')
    = if max_el <? 0 then Z.max 0 (Z.of_nat (length seq) + max_el)
      else Z.min (Z.of_nat (length seq)) max_el.
Proof.
  rewrite truncate_one_ints.
  destruct (Z.ltb_spec max_el 0) as [Hneg|Hpos].
  - destruct (Z.gtb_spec (Z.of_nat (length seq)) max_el); [|lia].
    eexists. split; [done|]. rewrite slice_to_neg by done.
    split; [apply prefix_take|]. rewrite length_take. lia.
  - fold (truncate_list seq max_el). rewrite truncate_list_nonneg by done.
    eexists. split; [done|]. split; [apply prefix_take|].
    rewrite length_take. lia.
Qed.

(** X2. Each batched function returns one entry per example of the batch,
    whatever the cells are: [truncate_sequence] a single column [sequence],
    [filter_by_min_length] a mask, [extract_next_term] the two columns
    [sequence_first_terms] and [sequence_next_term], all as long as the
    [sequence] column they were given. *)
Theorem batched_functions_keep_length (examples : batch)
    (seqs : list value) :
  examples !! "sequence" = Some seqs →
  (∀ max_el out, truncate_sequence examples max_el = Ok out →
     ∃ vals, out = [("sequence", vals)] ∧ length vals = length seqs) ∧
  (∀ n_el mask, filter_by_min_length examples n_el = Ok mask →
     length mask = length seqs) ∧
  (∀ out, extract_next_term examples = Ok out →
     ∃ first_terms next_terms,
       out = [("sequence_first_terms", first_terms);
              ("sequence_next_term", next_terms)] ∧
       length first_terms = length seqs ∧
       length next_terms = length seqs).
Proof.
  intros Hcol. split_and!.
  - intros max_el out. unfold truncate_sequence, getitem. rewrite Hcol.
    cbn [mbind result_bind].
    intros (vals & Hvals%traverse_same_length & [= <-])%bind_Ok. eauto.
  - intros n_el mask. unfold filter_by_min_length, getitem. rewrite Hcol.
    cbn [mbind result_bind].
    apply traverse_same_length.
  - intros out. unfold extract_next_term, getitem. rewrite Hcol.
    cbn [mbind result_bind].
    intros ([l1 l2] & [H1 H2]%extract_loop_length & [= <-])%bind_Ok.
    eauto.
Qed.

Lemma batched_functions_keep_length_witness :
  ∃ vals, truncate_sequence example_batch 2 = Ok [("sequence", vals)] ∧
          length vals = 3%nat.
Proof.
  destruct (proj1 (batched_functions_keep_length example_batch
                     [VInts [1; 2; 3]; VInts [4]; VInts [5; 6]] eq_refl)
              2 [("sequence", [VInts [1; 2]; VInts [4]; VInts [5; 6]])]
              eq_refl)
    as (vals & Hout & Hlen).
  exists vals. split; [by rewrite <- Hout|exact Hlen].
Defined.

Lemma bind_not_raise {A B} (e : exn) (m : result A) (f : A → result B) :
  m ≠ Raise e → (∀ a, f a ≠ Raise e) → m ≫= f ≠ Raise e.
Proof. intros Hm Hf. destruct m as [a|e']; simpl; [apply Hf|congruence]. Qed.

Lemma traverse_not_raise {A B} (e : exn) (f : A → result B) (l : list A) :
  (∀ x, f x ≠ Raise e) → traverse f l ≠ Raise e.
Proof.
  intros Hf. induction l as [|x l IH]; cbn [traverse]; [done|].
  apply bind_not_raise; [apply Hf|]. intros y.
  apply bind_not_raise; [apply IH|]. done.
Qed.

Lemma extract_loop_no_key_error (seqs acc1 acc2 : list value) :
  extract_loop seqs acc1 acc2 ≠ Raise KeyError.
Proof.
  revert acc1 acc2. induction seqs as [|seq seqs IH]; intros acc1 acc2;
    cbn [extract_loop]; [done|].
  apply bind_not_raise.
  { destruct seq as [| s | l | l]; simpl; [done|..]; by destruct (last _). }
  intros next_term. apply bind_not_raise; [by destruct seq|].
  intros beginning. apply IH.
Qed.

Lemma update_columns_no_key_error out (rs : list row) :
  HF.update_columns out rs ≠ Raise KeyError.
Proof.
  revert rs. induction out as [|[c vals] out IH]; intros rs;
    cbn [HF.update_columns]; [done|].
  apply bind_not_raise; [|intros rs'; apply IH].
  unfold HF.set_column. by case_decide.
Qed.

Lemma remove_columns_no_key_error cols (ds : Dataset) :
  HF.remove_columns cols ds ≠ Raise KeyError.
Proof. unfold HF.remove_columns. by destruct (forallb _ _). Qed.

(** X3. A batch without the [sequence] key makes each batched function
    raise [KeyError], and the guards of steps 3 to 5 keep that from
    happening: on any dataset, whatever its cells, none of the three steps
    raises [KeyError]. *)
Theorem sequence_key_is_guarded (ds : Dataset) (max_seq_len min_seq_len : Z) :
  (∀ examples : batch, examples !! "sequence" = None →
     truncate_sequence examples max_seq_len = Raise KeyError ∧
     filter_by_min_length examples min_seq_len = Raise KeyError ∧
     extract_next_term examples = Raise KeyError) ∧
  truncate_step max_seq_len ds ≠ Raise KeyError ∧
  min_length_step min_seq_len ds ≠ Raise KeyError ∧
  split_step ds ≠ Raise KeyError.
Proof.
  assert (∀ v, py_len v ≠ Raise KeyError) as Hlen by (by intros []).
  split_and!.
  - intros examples Hnone.
    unfold truncate_sequence, filter_by_min_length, extract_next_term,
      getitem. by rewrite Hnone.
  - unfold truncate_step. case_decide as Hin; [|done].
    unfold HF.map_batched. destruct (rows ds) as [|r rs] eqn:Hrows; [done|].
    rewrite <- Hrows. apply bind_not_raise.
    + unfold truncate_sequence, getitem. rewrite to_batch_lookup by done.
      cbn [mbind result_bind]. apply bind_not_raise; [|done].
      apply traverse_not_raise. intros v. unfold truncate_one.
      apply bind_not_raise; [apply Hlen|]. intros n.
      destruct (n >? max_seq_len); [by destruct v|done].
    + intros out. apply bind_not_raise; [|done].
      apply update_columns_no_key_error.
  - unfold min_length_step. case_decide as Hin; [|done].
    unfold HF.filter_batched. destruct (rows ds) as [|r rs] eqn:Hrows; [done|].
    rewrite <- Hrows. apply bind_not_raise.
    + unfold filter_by_min_length, getitem. rewrite to_batch_lookup by done.
      cbn [mbind result_bind]. apply traverse_not_raise. intros v.
      apply bind_not_raise; [apply Hlen|done].
    + intros mask. by case_decide.
  - unfold split_step. case_decide as Hin; [|done].
    apply bind_not_raise; [|intros sub; apply remove_columns_no_key_error].
    unfold HF.map_batched. destruct (rows ds) as [|r rs] eqn:Hrows; [done|].
    rewrite <- Hrows. apply bind_not_raise.
    + unfold extract_next_term, getitem. rewrite to_batch_lookup by done.
      cbn [mbind result_bind]. apply bind_not_raise.
      * apply extract_loop_no_key_error.
      * by intros [l1 l2].
    + intros out. apply bind_not_raise; [|done].
      apply update_columns_no_key_error.
Qed.

Lemma sequence_key_is_guarded_witness :
  truncate_sequence ∅ 20 = Raise KeyError ∧
  filter_by_min_length ∅ 8 = Raise KeyError ∧
  extract_next_term ∅ = Raise KeyError.
Proof.
  apply (proj1 (sequence_key_is_guarded example_dataset 20 8) ∅).
  reflexivity.
Defined.

Lemma truncate_row_twice (m1 m2 : Z) (r : row) :
  0 ≤ m1 → 0 ≤ m2 →
  truncate_row m2 (truncate_row m1 r) = truncate_row (Z.min m1 m2) r.
Proof.
  intros H1 H2. unfold truncate_row at 1. rewrite truncate_row_seq_of.
  unfold truncate_row. rewrite insert_insert_eq. do 2 f_equal.
  rewrite !truncate_list_nonneg by lia. rewrite take_take.
  f_equal. lia.
Qed.

(** X4. Truncations compose: for bounds that are not negative, truncating
    a dataset to [m1] elements and then to [m2] is truncating it to
    [min(m1, m2)]. *)
Theorem truncate_step_compose (ds : Dataset) (m1 m2 : Z) :
  "sequence" ∈ column_names ds →
  Forall (λ r : row, ∃ seq : list Z, r !! "sequence" = Some (VInts seq))
    (rows ds) →
  0 ≤ m1 → 0 ≤ m2 →
  (sub_ds ← truncate_step m1 ds; truncate_step m2 sub_ds)
  = truncate_step (Z.min m1 m2) ds ∧
  ∃ sub_ds, truncate_step (Z.min m1 m2) ds = Ok sub_ds.
Proof.
  intros Hin Hty H1 H2.
  rewrite (bind_Ok_l _ _ _ (truncate_step_rows m1 ds Hin Hty)).
  rewrite (truncate_step_rows (Z.min m1 m2) ds Hin Hty).
  split; [|eauto].
  rewrite (truncate_step_rows m2
             {| column_names := column_names ds;
                rows := truncate_row m1 <$> rows ds |}); [|done|].
  - do 2 f_equal. cbn [rows]. rewrite <- list_fmap_compose.
    apply list_fmap_ext. intros i r _. simpl. by apply truncate_row_twice.
  - apply Forall_fmap, Forall_forall. intros r _.
    apply truncate_row_has_sequence.
Qed.

Lemma example_sequences_typed :
  Forall (λ r : row, ∃ seq : list Z, r !! "sequence" = Some (VInts seq))
    (rows example_dataset).
Proof.
  simpl.
  repeat (apply Forall_cons; split; [eexists; vm_compute; reflexivity|]).
  apply Forall_nil. exact I.
Defined.

Lemma example_has_sequence : "sequence" ∈ column_names example_dataset.
Proof. apply (bool_decide_unpack _). vm_compute. exact I. Defined.

Lemma truncate_step_compose_witness :
  (sub_ds ← truncate_step 8 example_dataset; truncate_step 5 sub_ds)
  = truncate_step (Z.min 8 5) example_dataset ∧
  ∃ sub_ds, truncate_step (Z.min 8 5) example_dataset = Ok sub_ds.
Proof.
  apply (truncate_step_compose example_dataset 8 5).
  - exact example_has_sequence.
  - exact example_sequences_typed.
  - lia.
  - lia.
Defined.

Lemma filter_all {A} (P : A → Prop) `{∀ x, Decision (P x)} (l : list A) :
  Forall P l → filter P l = l.
Proof.
  induction 1 as [|x l Hx _ IH]; [done|].
  rewrite filter_cons_True by done. by rewrite IH.
Qed.

(** X5. Thresholds of the minimum-length filter: a threshold [n_el <= 0]
    keeps every row, and filtering with [n1] and then with [n2] is
    filtering with [max(n1, n2)]. *)
Theorem min_length_step_thresholds (ds : Dataset) :
  "sequence" ∈ column_names ds →
  Forall (λ r : row, ∃ seq : list Z, r !! "sequence" = Some (VInts seq))
    (rows ds) →
  (∀ n_el, n_el ≤ 0 → min_length_step n_el ds = Ok ds) ∧
  (∀ n1 n2,
     (sub_ds ← min_length_step n1 ds; min_length_step n2 sub_ds)
     = min_length_step (Z.max n1 n2) ds ∧
     ∃ sub_ds, min_length_step (Z.max n1 n2) ds = Ok sub_ds).
Proof.
  intros Hin Hty. split.
  - intros n_el Hn. rewrite (min_length_step_rows n_el ds Hin Hty).
    rewrite <- (dataset_eta ds) at 3. do 2 f_equal.
    apply filter_all, Forall_forall. intros r _. unfold long_enough. lia.
  - intros n1 n2.
    rewrite (bind_Ok_l _ _ _ (min_length_step_rows n1 ds Hin Hty)).
    rewrite (min_length_step_rows (Z.max n1 n2) ds Hin Hty).
    split; [|eauto].
    rewrite (min_length_step_rows n2
               {| column_names := column_names ds;
                  rows := filter (long_enough n1) (rows ds) |}); [|done|].
    + do 2 f_equal. cbn [rows]. rewrite list_filter_filter.
      apply list_filter_iff. intros r. unfold long_enough. lia.
    + cbn [rows]. eapply Forall_impl;
        [exact (Forall_list_filter _ (long_enough n1) _ Hty)|].
      by intros r [? _].
Qed.

Lemma min_length_step_thresholds_witness :
  min_length_step 0 example_dataset = Ok example_dataset.
Proof.
  apply (proj1 (min_length_step_thresholds example_dataset
                  example_has_sequence example_sequences_typed) 0).
  lia.
Defined.

(* ===================================================================== *)
(** ** Further properties of the deduplicator *)
(* ===================================================================== *)

Lemma drop_duplicates_rows (ds : Dataset) :
  "sequence_first_terms" ∈ column_names ds →
  Forall has_first_terms (rows ds) →
  drop_duplicate_sequence_beginnings ds
  = Ok {| column_names := column_names ds;
          rows := HF.keep_where
                    (first_occurrences ∅ (key_of <$> rows ds)) (rows ds) |}.
Proof.
  intros Hin Hty. unfold drop_duplicate_sequence_beginnings, HF.filter_rows.
  rewrite decide_False by auto.
  by rewrite (bind_Ok_l _ _ _ (filter_loop_first_occurrences (rows ds) ∅ Hty)).
Qed.

Section distinct_keys.
Context {K : Type} `{Countable K}.

Lemma keep_where_distinct {A} (seen : gset K) (keys : list K) (l : list A) :
  NoDup keys → (∀ k, k ∈ keys → k ∉ seen) → length l = length keys →
  HF.keep_where (first_occurrences seen keys) l = l.
Proof.
  intros Hnd. revert seen l.
  induction Hnd as [|k keys Hk _ IH]; intros seen [|x l] Hseen Hlen;
    simplify_eq/=; [done|].
  rewrite decide_True by (apply Hseen; left).
  simpl. f_equal. apply IH; [|done].
  intros k' Hk'. rewrite not_elem_of_union, not_elem_of_singleton.
  split; [by intros ->|]. apply Hseen. by right.
Qed.


End distinct_keys.

Lemma has_first_terms_keep_where (mask : list bool) (rs : list row) :
  Forall has_first_terms rs → Forall has_first_terms (HF.keep_where mask rs).
Proof. apply Forall_keep_where. Qed.

(** X6. Deduplication is idempotent: on a dataset with a
    [sequence_first_terms] column of integer lists, running
    [drop_duplicate_sequence_beginnings] on its own result changes
    nothing. *)
Theorem drop_duplicates_idempotent (ds : Dataset) :
  "sequence_first_terms" ∈ column_names ds →
  Forall (λ r : row, ∃ l : list Z,
            r !! "sequence_first_terms" = Some (VInts l)) (rows ds) →
  ∃ ds', drop_duplicate_sequence_beginnings ds = Ok ds' ∧
         drop_duplicate_sequence_beginnings ds' = Ok ds'.
Proof.
  intros Hin Hty. eexists. split; [by apply drop_duplicates_rows|].
  set (rs' := HF.keep_where (first_occurrences ∅ (key_of <$> rows ds))
                (rows ds)).
  rewrite (drop_duplicates_rows
             {| column_names := column_names ds; rows := rs' |});
    [|done|by apply has_first_terms_keep_where].
  do 2 f_equal. cbn [rows]. apply keep_where_distinct.
  - unfold rs'. rewrite <- keep_where_fmap.
    apply keep_where_first_occurrences_NoDup.
  - intros k _. apply not_elem_of_empty.
  - by rewrite length_fmap.
Qed.

(** X7. A dataset that has the [sequence_first_terms] column, with a list
    of integers in every row, and whose [sequence_first_terms] values are
    pairwise different is returned unchanged by the deduplicator. *)
Theorem drop_duplicates_distinct (ds : Dataset) :
  "sequence_first_terms" ∈ column_names ds →
  Forall (λ r : row, ∃ l : list Z,
            r !! "sequence_first_terms" = Some (VInts l)) (rows ds) →
  NoDup (first_terms_of <$> rows ds) →
  drop_duplicate_sequence_beginnings ds = Ok ds.
Proof.
  intros Hin Hty Hnd. rewrite (drop_duplicates_rows ds Hin Hty).
  destruct ds as [names rs]. cbn [rows column_names] in *. do 2 f_equal.
  apply keep_where_distinct.
  - change key_of with (fmap AInt ∘ first_terms_of).
    rewrite (list_fmap_compose first_terms_of (fmap AInt)).
    apply (NoDup_fmap_2 _). exact Hnd.
  - intros k _. apply not_elem_of_empty.
  - by rewrite length_fmap.
Qed.


(* ===================================================================== *)
(** ** Further properties of the flag derivation and the selection *)
(* ===================================================================== *)

(** X9. [_add_easy_flag] by the kind of the [keywords] cell, for the four
    kinds of cell of the model (integer, string, list of integers, list of
    strings).  A row without a [keywords] cell gets [is_easy = 0], the
    default of [example.get]; an integer cell raises [TypeError]; a list of
    strings gives 1 if "easy" is one of them and 0 otherwise; a list of
    integers gives 0; a string gives 0 or 1. *)
Theorem add_easy_flag_cases (example : row) :
  (example !! "keywords" = None →
   _add_easy_flag example = Ok [("is_easy", VInt 0)]) ∧
  (∀ n : Z, example !! "keywords" = Some (VInt n) →
     _add_easy_flag example = Raise TypeError) ∧
  (∀ kws : list string, example !! "keywords" = Some (VStrs kws) →
     _add_easy_flag example
     = Ok [("is_easy", VInt (if bool_decide ("easy" ∈ kws) then 1 else 0))]) ∧
  (∀ l : list Z, example !! "keywords" = Some (VInts l) →
     _add_easy_flag example = Ok [("is_easy", VInt 0)]) ∧
  (∀ s : string, example !! "keywords" = Some (VStr s) →
     ∃ is_easy, _add_easy_flag example = Ok [("is_easy", VInt is_easy)] ∧
                (is_easy = 0 ∨ is_easy = 1)).
Proof.
  unfold _add_easy_flag. split_and!.
  - by intros ->.
  - by intros n ->.
  - intros kws ->. simpl. by case_bool_decide.
  - by intros l ->.
  - intros s ->. simpl. destruct (index 0 "easy" s); eauto.
Qed.

Lemma add_easy_flag_cases_witness :
  _add_easy_flag {[ "sequence_id" := VStr "A000040";
                    "keywords" := VStrs ["nonn"; "core"; "easy"] ]}
  = Ok [("is_easy", VInt 1)].
Proof.
  apply (proj1 (proj2 (proj2 (add_easy_flag_cases
                  {[ "sequence_id" := VStr "A000040";
                     "keywords" := VStrs ["nonn"; "core"; "easy"] ]})))
           ["nonn"; "core"; "easy"]).
  vm_compute. reflexivity.
Defined.

(** X10. [add_is_easy_column] only adds: on a dataset whose [keywords]
    cells are lists of strings it keeps the number of rows, every column of
    the schema ([keywords] included: dropping it is left to the caller) and
    every cell other than [is_easy]. *)
Theorem add_is_easy_column_only_adds (ds : Dataset) :
  "keywords" ∈ column_names ds →
  Forall (λ r : row, ∃ kws : list string,
            r !! "keywords" = Some (VStrs kws)) (rows ds) →
  ∃ ds', add_is_easy_column ds = Ok ds' ∧
    (∀ c, c ∈ column_names ds → c ∈ column_names ds') ∧
    (∀ c, c ∈ column_names ds' → c ∈ column_names ds ∨ c = "is_easy") ∧
    Forall2 (λ r r' : row, ∀ c, c ≠ "is_easy" → r' !! c = r !! c)
      (rows ds) (rows ds').
Proof.
  intros Hin Hty. unfold add_is_easy_column. rewrite decide_False by auto.
  destruct (decide (rows ds = [])) as [Hnil|Hrows].
  - exists ds. unfold HF.map_rows. rewrite Hnil.
    split_and!; [done|done|by left|constructor].
  - eexists. split.
    + apply (map_rows_pure _
        (λ r, [("is_easy",
                VInt (if bool_decide ("easy" ∈ keywords_of r)
                      then 1 else 0))]) ds Hrows).
      eapply Forall_impl; [exact Hty|]. apply add_easy_flag_keywords.
    + cbn [column_names rows]. split_and!.
      * intros c Hc. apply elem_of_extend_names. by left.
      * intros c [?|Hc]%elem_of_extend_names; [by left|right].
        destruct (rows ds); [done|]. simpl in Hc.
        by apply list_elem_of_singleton in Hc.
      * apply Forall2_fmap_r, Forall_Forall2_diag, Forall_forall.
        intros r _ c Hc. simpl. by rewrite lookup_insert_ne.
Qed.

Lemma add_is_easy_column_only_adds_witness :
  ∃ ds', add_is_easy_column names_only = Ok ds' ∧
    (∀ c, c ∈ column_names names_only → c ∈ column_names ds') ∧
    (∀ c, c ∈ column_names ds' →
          c ∈ column_names names_only ∨ c = "is_easy") ∧
    Forall2 (λ r r' : row, ∀ c, c ≠ "is_easy" → r' !! c = r !! c)
      (rows names_only) (rows ds').
Proof.
  apply (add_is_easy_column_only_adds names_only).
  - apply (bool_decide_unpack _). vm_compute. exact I.
  - simpl.
    repeat (apply Forall_cons; split; [eexists; vm_compute; reflexivity|]).
    apply Forall_nil. exact I.
Defined.

Lemma filter_ext_in {A} (P Q : A → Prop)
    `{∀ x, Decision (P x)} `{∀ x, Decision (Q x)} (l : list A) :
  (∀ x, x ∈ l → P x ↔ Q x) → filter P l = filter Q l.
Proof.
  induction l as [|x l IH]; intros Hiff; [done|].
  rewrite !filter_cons.
  rewrite IH by (intros y Hy; apply Hiff; by right).
  apply decide_ext, Hiff. by left.
Qed.

Lemma selected_idempotent (names : list string) :
  selected (selected names) = selected names.
Proof.
  unfold selected at 1 3. apply filter_ext_in. intros c Hc.
  rewrite elem_of_selected. tauto.
Qed.

Lemma project_idempotent (names : list string) (r : row) :
  project (selected names) (project names r) = project names r.
Proof.
  apply map_eq. intros c. rewrite !project_lookup, selected_idempotent.
  by case_decide.
Qed.

Lemma selected_rows_idempotent (names : list string) (rs : list row) :
  selected_rows (selected names) (selected_rows names rs)
  = selected_rows names rs.
Proof.
  unfold selected_rows. rewrite selected_idempotent.
  destruct (selected names) as [|c cs] eqn:Hsel; [done|].
  rewrite <- Hsel. rewrite <- list_fmap_compose. apply list_fmap_ext.
  intros i r _. simpl. apply project_idempotent.
Qed.

Lemma selected_none (names : list string) :
  (∀ c, c ∈ names → c ∉ required_columns) → selected names = [].
Proof.
  intros Hnone. destruct (selected names) as [|c cs] eqn:Hsel; [done|].
  assert (c ∈ selected names) as [Hc Hreq]%elem_of_selected
    by (rewrite Hsel; left).
  by destruct (Hnone c Hc).
Qed.

(** X11. The column selection: it never raises; its schema is exactly the
    columns of the dataset that are among [sequence_id], [sequence_name],
    [sequence] and [keywords]; if the dataset has at least one of them,
    every row is kept, with the cells of those columns and no other cell;
    if it has none of them, the result has no columns and no rows; and
    selecting again changes nothing. *)
Theorem select_step_projects (ds : Dataset) :
  ∃ ds', select_step ds = Ok ds' ∧
    (∀ c, c ∈ column_names ds' ↔
          c ∈ column_names ds ∧ c ∈ required_columns) ∧
    ((∃ c, c ∈ column_names ds ∧ c ∈ required_columns) →
     Forall2 (λ r r' : row, ∀ c,
                r' !! c = if decide (c ∈ column_names ds ∧
                                     c ∈ required_columns)
                          then r !! c else None)
       (rows ds) (rows ds')) ∧
    ((∀ c, c ∈ column_names ds → c ∉ required_columns) →
     column_names ds' = [] ∧ rows ds' = []) ∧
    select_step ds' = Ok ds'.
Proof.
  eexists. split; [apply select_step_rows|]. cbn [column_names rows].
  split_and!.
  - intros c. apply elem_of_selected.
  - intros (c0 & Hc0 & Hreq0).
    rewrite (selected_rows_some _ _ c0) by (by apply elem_of_selected).
    apply Forall2_fmap_r, Forall_Forall2_diag, Forall_forall.
    intros r _ c. rewrite project_lookup.
    apply decide_ext, elem_of_selected.
  - intros Hnone%selected_none. unfold selected_rows. by rewrite Hnone.
  - rewrite select_step_rows. cbn [column_names rows].
    by rewrite selected_idempotent, selected_rows_idempotent.
Qed.

(* ===================================================================== *)
(** ** Further properties of the whole preparation *)
(* ===================================================================== *)

Lemma update_columns_length out (rs rs' : list row) :
  HF.update_columns out rs = Ok rs' → length rs' = length rs.
Proof.
  intros Hup%update_columns_grows. symmetry. by eapply Forall2_length.
Qed.

Lemma map_batched_length f (ds ds' : Dataset) :
  HF.map_batched f ds = Ok ds' → length (rows ds') = length (rows ds).
Proof.
  unfold HF.map_batched. destruct (rows ds) as [|r rs] eqn:Hrows.
  - intros [= <-]. by rewrite Hrows.
  - by intros (out & _ & (rs' & Hup%update_columns_length & [= <-])%bind_Ok
              )%bind_Ok.
Qed.

Lemma zip_with_update_length (l : list row)
    (outs : list (list (string * value))) :
  length outs = length l →
  length (zip_with HF.update_row l outs) = length l.
Proof. intros Hlen. rewrite length_zip_with. lia. Qed.

Lemma map_rows_length f (ds ds' : Dataset) :
  HF.map_rows f ds = Ok ds' → length (rows ds') = length (rows ds).
Proof.
  unfold HF.map_rows. destruct (rows ds) as [|r rs] eqn:Hrows.
  - intros [= <-]. by rewrite Hrows.
  - intros (outs & Houts%traverse_same_length & [= <-])%bind_Ok.
    exact (zip_with_update_length (r :: rs) outs Houts).
Qed.

Lemma remove_columns_length cols (ds ds' : Dataset) :
  HF.remove_columns cols ds = Ok ds' → length (rows ds') = length (rows ds).
Proof.
  unfold HF.remove_columns. destruct (forallb _ _); [|done].
  intros [= <-]. cbn [rows]. by rewrite length_fmap.
Qed.

Lemma select_step_projects_witness :
  ∃ ds', select_step wide_dataset = Ok ds' ∧
    Forall2 (λ r r' : row, ∀ c,
               r' !! c = if decide (c ∈ column_names wide_dataset ∧
                                    c ∈ required_columns)
                         then r !! c else None)
      (rows wide_dataset) (rows ds').
Proof.
  destruct (select_step_projects wide_dataset)
    as (ds' & Heq & _ & Hrows & _).
  exists ds'. split; [exact Heq|]. apply Hrows.
  exists "sequence". split; apply (bool_decide_unpack _); by vm_compute.
Defined.

(** X12. The preparation never adds rows: whatever the dataset and the
    configuration, a preparation that completes returns at most as many
    rows as it was given. *)
Theorem prepare_never_adds_rows (ds out : Dataset)
    (max_seq_len min_seq_len : Z) :
  prepare ds max_seq_len min_seq_len = Ok out →
  (length (rows out) ≤ length (rows ds))%nat.
Proof.
  unfold prepare.
  intros (ds0 & H0 & (ds1 & H1 & (ds2 & H2 & (ds3 & H3 & (ds4 & H4 & H5
         )%bind_Ok)%bind_Ok)%bind_Ok)%bind_Ok)%bind_Ok.
  assert (length (rows ds0) ≤ length (rows ds))%nat as E0.
  { rewrite select_step_rows in H0. injection H0 as <-.
    cbn [rows]. unfold selected_rows.
    destruct (selected (column_names ds)); [simpl; lia|].
    by rewrite length_fmap. }
  assert (length (rows ds1) = length (rows ds0)) as E1.
  { unfold truncate_step in H1. case_decide; [|by simplify_eq].
    by apply map_batched_length in H1. }
  assert (length (rows ds2) ≤ length (rows ds1))%nat as E2.
  { unfold min_length_step in H2. case_decide; [|by simplify_eq].
    apply filter_batched_schema in H2 as (_ & Hsub & _).
    by apply sublist_length. }
  assert (length (rows ds3) = length (rows ds2)) as E3.
  { unfold split_step in H3. case_decide; [|by simplify_eq].
    apply bind_Ok in H3 as (sub & Hmap%map_batched_length
                                & Hrem%remove_columns_length). lia. }
  assert (length (rows ds4) ≤ length (rows ds3))%nat as E4.
  { unfold dedup_step, drop_duplicate_sequence_beginnings in H4.
    case_decide; [|by simplify_eq]. case_decide; [by simplify_eq|].
    apply filter_rows_schema in H4 as (_ & Hsub & _).
    by apply sublist_length. }
  assert (length (rows out) = length (rows ds4)) as E5.
  { unfold is_easy_step, add_is_easy_column in H5.
    case_decide; [|by simplify_eq]. rewrite decide_False in H5 by auto.
    apply bind_Ok in H5 as (sub & Hmap%map_rows_length
                                & Hrem%remove_columns_length). lia. }
  lia.
Qed.

Lemma prepare_never_adds_rows_witness :
  (length (rows example_output) ≤ length (rows example_dataset))%nat.
Proof.
  apply (prepare_never_adds_rows example_dataset example_output 8 8).
  vm_compute. reflexivity.
Defined.

(** Every row of the result is the image of an input row that passes the
    length filter after truncation; the first terms of the result are
    pairwise different. *)
Lemma prepare_rows_origin (ds : Dataset) (max_seq_len min_seq_len : Z) :
  "sequence" ∈ column_names ds → data_model ds → 1 ≤ min_seq_len →
  ∃ out, prepare ds max_seq_len min_seq_len = Ok out ∧
    Forall (λ r' : row, ∃ r : row,
              r ∈ rows ds ∧
              long_enough min_seq_len
                (truncate_row max_seq_len (project (column_names ds) r)) ∧
              r' = prepared_row (column_names ds) max_seq_len r)
      (rows out) ∧
    NoDup (first_terms_of <$> rows out).
Proof.
  intros Hin Hmodel Hmin.
  destruct (prepare_with_sequence ds max_seq_len min_seq_len Hin Hmodel Hmin)
    as [names Heq].
  eexists. split; [exact Heq|]. cbn [rows]. cbv zeta.
  set (rs := split_rows max_seq_len min_seq_len
               (project (column_names ds) <$> rows ds)).
  assert (Forall (λ r' : row, ∃ r : row,
              r ∈ rows ds ∧
              long_enough min_seq_len
                (truncate_row max_seq_len (project (column_names ds) r)) ∧
              r' = split_row (truncate_row max_seq_len
                                (project (column_names ds) r)))
            (sequence_rows max_seq_len min_seq_len
               (project (column_names ds) <$> rows ds))) as Horigin.
  { apply Forall_keep_where. unfold split_rows.
    apply Forall_fmap, Forall_forall.
    intros r1 [Hlong (r0 & -> & (r & -> & Hr)%list_elem_of_fmap
                     )%list_elem_of_fmap]%list_elem_of_filter.
    exists r. simpl. done. }
  assert (NoDup (first_terms_of <$>
                   sequence_rows max_seq_len min_seq_len
                     (project (column_names ds) <$> rows ds))) as Hnd.
  { unfold sequence_rows. fold rs. cbv zeta.
    apply (NoDup_fmap_1 (fmap AInt)). rewrite <- list_fmap_compose.
    change (fmap AInt ∘ first_terms_of) with key_of.
    rewrite <- keep_where_fmap. apply keep_where_first_occurrences_NoDup. }
  unfold prepared_row. destruct (decide ("keywords" ∈ column_names ds)).
  - split.
    + apply Forall_fmap. eapply Forall_impl; [exact Horigin|].
      intros r' (r & Hr & Hlong & ->). exists r. done.
    + rewrite <- list_fmap_compose.
      erewrite list_fmap_ext; [exact Hnd|].
      intros i r _. simpl. unfold first_terms_of.
      by rewrite easy_row_first_terms.
  - done.
Qed.

Lemma project_seq_of (names : list string) (r : row) :
  "sequence" ∈ names → seq_of (project names r) = seq_of r.
Proof.
  intros Hin. unfold seq_of. rewrite project_lookup.
  rewrite decide_True; [done|].
  apply elem_of_selected. split; [done|]. unfold required_columns. set_solver.
Qed.

Lemma project_keywords_of (names : list string) (r : row) :
  "keywords" ∈ names → keywords_of (project names r) = keywords_of r.
Proof.
  intros Hin. unfold keywords_of. rewrite project_lookup.
  rewrite decide_True; [done|].
  apply elem_of_selected. split; [done|]. unfold required_columns. set_solver.
Qed.

Lemma split_row_next_term (r : row) :
  split_row r !! "sequence_next_term"
  = Some (VInt (default 0 (last (seq_of r)))).
Proof.
  unfold split_row. rewrite lookup_delete_ne by done.
  by rewrite lookup_insert_eq.
Qed.

Lemma easy_row_lookup_ne (r : row) (c : string) :
  c ≠ "keywords" → c ≠ "is_easy" → easy_row r !! c = r !! c.
Proof.
  intros H1 H2. unfold easy_row. rewrite lookup_delete_ne by done.
  by rewrite lookup_insert_ne.
Qed.

Lemma prepared_row_lookup_split (names : list string) (max_seq_len : Z)
    (r : row) (c : string) :
  c ≠ "keywords" → c ≠ "is_easy" →
  prepared_row names max_seq_len r !! c
  = split_row (truncate_row max_seq_len (project names r)) !! c.
Proof.
  intros H1 H2. unfold prepared_row. case_decide; [|done].
  by apply easy_row_lookup_ne.
Qed.



Lemma split_row_lookup_ne (r : row) (c : string) :
  c ≠ "sequence" → c ≠ "sequence_first_terms" → c ≠ "sequence_next_term" →
  split_row r !! c = r !! c.
Proof.
  intros H1 H2 H3. unfold split_row. rewrite lookup_delete_ne by done.
  by rewrite !lookup_insert_ne by done.
Qed.

Lemma easy_row_is_easy (r : row) :
  easy_row r !! "is_easy"
  = Some (VInt (if bool_decide ("easy" ∈ keywords_of r) then 1 else 0)).
Proof.
  unfold easy_row. rewrite lookup_delete_ne by done.
  by rewrite lookup_insert_eq.
Qed.

Lemma carried_lookup (names : list string) (max_seq_len : Z) (r : row)
    (c : string) :
  c ≠ "sequence" → c ≠ "sequence_first_terms" → c ≠ "sequence_next_term" →
  split_row (truncate_row max_seq_len (project names r)) !! c
  = if decide (c ∈ selected names) then r !! c else None.
Proof.
  intros H1 H2 H3. rewrite split_row_lookup_ne by done.
  rewrite truncate_row_lookup_ne by done. apply project_lookup.
Qed.

(** X14. The flag and the metadata of a result row.  On a dataset of the
    data model, with [1 <= min_seq_len] whenever the dataset has the
    [sequence] column, the preparation completes and every row of the
    result stems from an input row such that: if the input has the
    [keywords] column, [is_easy] is 1 or 0 according to whether "easy" is
    among the keywords of that input row; if it has none, [is_easy] is
    absent; and [sequence_id] and [sequence_name] are the cells of that
    input row, unchanged (absent where the input lacks the column). *)
Theorem prepared_flag_and_metadata (ds : Dataset)
    (max_seq_len min_seq_len : Z) :
  data_model ds →
  ("sequence" ∈ column_names ds → 1 ≤ min_seq_len) →
  ∃ out, prepare ds max_seq_len min_seq_len = Ok out ∧
    Forall (λ r' : row, ∃ r : row,
              r ∈ rows ds ∧
              ("keywords" ∈ column_names ds →
               ∃ kws : list string,
                 r !! "keywords" = Some (VStrs kws) ∧
                 r' !! "is_easy"
                 = Some (VInt (if bool_decide ("easy" ∈ kws)
                               then 1 else 0))) ∧
              ("keywords" ∉ column_names ds → r' !! "is_easy" = None) ∧
              (∀ c, c = "sequence_id" ∨ c = "sequence_name" →
                    r' !! c = if decide (c ∈ column_names ds)
                              then r !! c else None))
      (rows out).
Proof.
  intros Hmodel Hmin.
  assert (∀ c, c = "sequence_id" ∨ c = "sequence_name" →
               c ∈ selected (column_names ds) ↔ c ∈ column_names ds)
    as Hmeta.
  { intros c Hc. rewrite elem_of_selected.
    split; [by intros [? _]|]. intros ?. split; [done|].
    unfold required_columns. destruct Hc as [-> | ->]; set_solver. }
  assert ("is_easy" ∉ selected (column_names ds)) as Hflag.
  { intros Hsel%selected_required. revert Hsel.
    apply (bool_decide_unpack _). by vm_compute. }
  destruct (decide ("sequence" ∈ column_names ds)) as [Hin|Hout].
  - destruct (prepare_rows_origin ds max_seq_len min_seq_len Hin Hmodel
                (Hmin Hin)) as (out & Heq & Horigin & _).
    exists out. split; [exact Heq|].
    eapply Forall_impl; [exact Horigin|].
    intros r' (r & Hr & _ & ->). exists r. split; [done|].
    unfold data_model in Hmodel. rewrite Forall_forall in Hmodel.
    destruct (Hmodel r Hr) as [_ Hkws].
    split_and!.
    + intros Hkw. destruct (Hkws Hkw) as [kws Hr_kws]. exists kws.
      split; [done|]. unfold prepared_row. rewrite decide_True by done.
      rewrite easy_row_is_easy. do 3 f_equal.
      unfold keywords_of.
      rewrite carried_lookup by done. rewrite decide_True; [by rewrite Hr_kws|].
      apply elem_of_selected. split; [done|]. unfold required_columns.
      set_solver.
    + intros Hkw. unfold prepared_row. rewrite decide_False by done.
      rewrite carried_lookup by done. by rewrite decide_False.
    + intros c Hc.
      rewrite prepared_row_lookup_split by (destruct Hc as [-> | ->]; done).
      rewrite carried_lookup by (destruct Hc as [-> | ->]; done).
      apply decide_ext. by apply Hmeta.
  - destruct (prepare_without_sequence ds max_seq_len min_seq_len Hout Hmodel)
      as [names Heq].
    eexists. split; [exact Heq|]. cbn [rows]. cbv zeta.
    pose proof (selected_rows_project (column_names ds) (rows ds)) as Hrs.
    unfold data_model in Hmodel. rewrite Forall_forall in Hmodel.
    destruct (decide ("keywords" ∈ column_names ds)) as [Hkw|Hkw].
    + apply Forall_fmap. eapply Forall_impl; [exact Hrs|].
      intros r0 (r & Hr & ->). simpl. exists r. split; [done|].
      destruct (Hmodel r Hr) as [_ Hkws].
      split_and!; [|done|].
      * intros _. destruct (Hkws Hkw) as [kws Hr_kws]. exists kws.
        split; [done|]. rewrite easy_row_is_easy.
        rewrite project_keywords_of by done.
        unfold keywords_of. by rewrite Hr_kws.
      * intros c Hc.
        rewrite easy_row_lookup_ne by (destruct Hc as [-> | ->]; done).
        rewrite project_lookup. apply decide_ext. by apply Hmeta.
    + eapply Forall_impl; [exact Hrs|].
      intros r0 (r & Hr & ->). exists r. split; [done|].
      split_and!; [done| |].
      * intros _. rewrite project_lookup. by rewrite decide_False.
      * intros c Hc. rewrite project_lookup. apply decide_ext.
        by apply Hmeta.
Qed.

#[global] Instance Some_VInts_inj : Inj (=) (=) (λ l, Some (VInts l)).
Proof. by intros l1 l2 [= ->]. Qed.

(** X15. The result of the preparation has no two rows with the same
    [sequence_first_terms] cell (on a dataset of the data model with the
    [sequence] column, for [1 <= min_seq_len]): the uniqueness that the
    deduplicator establishes survives the last step. *)
Theorem prepared_first_terms_distinct (ds : Dataset)
    (max_seq_len min_seq_len : Z) :
  "sequence" ∈ column_names ds → data_model ds → 1 ≤ min_seq_len →
  ∃ out, prepare ds max_seq_len min_seq_len = Ok out ∧
    NoDup ((λ r : row, r !! "sequence_first_terms") <$> rows out).
Proof.
  intros Hin Hmodel Hmin.
  destruct (prepare_rows_origin ds max_seq_len min_seq_len Hin Hmodel Hmin)
    as (out & Heq & Horigin & Hnd).
  exists out. split; [exact Heq|].
  assert ((λ r : row, r !! "sequence_first_terms") <$> rows out
          = (λ l, Some (VInts l)) <$> (first_terms_of <$> rows out)) as ->.
  { rewrite <- list_fmap_compose. apply list_fmap_ext. intros i r' Hi.
    rewrite Forall_forall in Horigin.
    destruct (Horigin r') as (r & _ & _ & ->).
    { apply list_elem_of_lookup. eauto. }
    simpl. apply first_terms_of_lookup. eexists.
    rewrite prepared_row_lookup_split by done. apply split_row_first_terms. }
  by apply (NoDup_fmap_2 _).
Qed.

(** X16. A configuration whose maximum is below its minimum produces an
    empty result: for [0 <= max_seq_len < min_seq_len], on a dataset of the
    data model with the [sequence] column, the preparation completes with
    no rows. *)
Theorem prepared_empty_when_max_below_min (ds : Dataset)
    (max_seq_len min_seq_len : Z) :
  "sequence" ∈ column_names ds → data_model ds →
  0 ≤ max_seq_len → max_seq_len < min_seq_len →
  ∃ out, prepare ds max_seq_len min_seq_len = Ok out ∧ rows out = [].
Proof.
  intros Hin Hmodel Hmax Hlt.
  destruct (prepare_rows_origin ds max_seq_len min_seq_len Hin Hmodel)
    as (out & Heq & Horigin & _); [lia|].
  exists out. split; [exact Heq|].
  destruct (rows out) as [|r' rs]; [done|].
  apply Forall_cons in Horigin as [(r & _ & Hlong & _) _].
  unfold long_enough in Hlong. rewrite truncate_row_seq_of in Hlong.
  pose proof (truncate_list_length
                (seq_of (project (column_names ds) r)) max_seq_len Hmax).
  lia.
Qed.

(* ===================================================================== *)
(** ** The schema of a result that has rows *)
(* ===================================================================== *)

Lemma map_batched_new_names f (ds ds' : Dataset) (new : list string) :
  (∀ b out, f b = Ok out → out.*1 = new) →
  rows ds ≠ [] → HF.map_batched f ds = Ok ds' →
  ∀ c, c ∈ new → c ∈ column_names ds'.
Proof.
  intros Hnew Hne. unfold HF.map_batched.
  destruct (rows ds) as [|r rs]; [done|].
  intros (out & Hf & (rs' & _ & [= <-])%bind_Ok)%bind_Ok c Hc.
  cbn [column_names]. apply elem_of_extend_names. right.
  by rewrite (Hnew _ _ Hf).
Qed.

Lemma map_rows_new_names f (ds ds' : Dataset) (new : list string) :
  (∀ r out, f r = Ok out → out.*1 = new) →
  rows ds ≠ [] → HF.map_rows f ds = Ok ds' →
  ∀ c, c ∈ new → c ∈ column_names ds'.
Proof.
  intros Hnew Hne. unfold HF.map_rows.
  destruct (rows ds) as [|r rs]; [done|].
  intros (outs & Houts%traverse_Forall2 & [= <-])%bind_Ok c Hc.
  cbn [column_names]. apply elem_of_extend_names. right.
  inversion Houts as [|? out ? ? Hout]; subst. simpl.
  by rewrite (Hnew _ _ Hout).
Qed.

(** What step 5 keeps and adds. *)
Lemma split_step_keeps (ds ds' : Dataset) :
  split_step ds = Ok ds' →
  length (rows ds') = length (rows ds) ∧
  (∀ c, c ∈ column_names ds → c ≠ "sequence" → c ∈ column_names ds') ∧
  ("sequence" ∈ column_names ds → rows ds ≠ [] →
   "sequence_first_terms" ∈ column_names ds' ∧
   "sequence_next_term" ∈ column_names ds').
Proof.
  unfold split_step. case_decide as Hseq; [|intros [= <-]; by auto].
  intros (sub & Hmap & Hrem)%bind_Ok.
  pose proof (map_batched_length _ _ _ Hmap) as Hlen1.
  pose proof (remove_columns_length _ _ _ Hrem) as Hlen2.
  pose proof (λ Hne, map_batched_new_names extract_next_term ds sub
                ["sequence_first_terms"; "sequence_next_term"]
                extract_next_term_names Hne Hmap) as Hnew.
  apply (map_batched_schema _ _ _
           ["sequence_first_terms"; "sequence_next_term"]) in Hmap
    as (_ & Hold & _); [|intros b out; apply extract_next_term_names].
  apply remove_columns_schema in Hrem as [Hcols _].
  split_and!.
  - lia.
  - intros c Hc Hne. rewrite Hcols, list_elem_of_filter.
    rewrite list_elem_of_singleton. auto.
  - intros _ Hrows. rewrite Hcols, !list_elem_of_filter.
    rewrite !list_elem_of_singleton.
    split; (split; [done|apply (Hnew Hrows); set_solver]).
Qed.

(** What step 7 keeps and adds. *)
Lemma is_easy_step_keeps (ds ds' : Dataset) :
  is_easy_step ds = Ok ds' →
  length (rows ds') = length (rows ds) ∧
  (∀ c, c ∈ column_names ds → c ≠ "keywords" → c ∈ column_names ds') ∧
  ("keywords" ∈ column_names ds → rows ds ≠ [] →
   "is_easy" ∈ column_names ds').
Proof.
  unfold is_easy_step, add_is_easy_column.
  case_decide as Hkw; [|intros [= <-]; by auto].
  rewrite decide_False by auto.
  intros (sub & Hmap & Hrem)%bind_Ok.
  pose proof (map_rows_length _ _ _ Hmap) as Hlen1.
  pose proof (remove_columns_length _ _ _ Hrem) as Hlen2.
  pose proof (λ Hne, map_rows_new_names _add_easy_flag ds sub ["is_easy"]
                add_easy_flag_names Hne Hmap) as Hnew.
  apply (map_rows_schema _ _ _ ["is_easy"]) in Hmap
    as (_ & Hold & _); [|apply add_easy_flag_names].
  apply remove_columns_schema in Hrem as [Hcols _].
  split_and!.
  - lia.
  - intros c Hc Hne. rewrite Hcols, list_elem_of_filter.
    rewrite list_elem_of_singleton. auto.
  - intros _ Hrows. rewrite Hcols, list_elem_of_filter.
    rewrite list_elem_of_singleton.
    split; [done|apply (Hnew Hrows); set_solver].
Qed.

Lemma nonempty_of_length {A} (l l' : list A) :
  (length l' ≤ length l)%nat → l' ≠ [] → l ≠ [].
Proof. intros Hlen Hne ->. destruct l'; [done|]. simpl in Hlen. lia. Qed.

(** X17. The schema of a result that has rows, for any dataset with the
    [sequence] column and any configuration: its columns are
    [sequence_id] and [sequence_name] where the input has them,
    [sequence_first_terms], [sequence_next_term], and [is_easy] where the
    input has [keywords]; nothing else. *)
Theorem schema_of_nonempty_result (ds out : Dataset)
    (max_seq_len min_seq_len : Z) :
  prepare ds max_seq_len min_seq_len = Ok out →
  "sequence" ∈ column_names ds → rows out ≠ [] →
  ∀ c, c ∈ column_names out ↔
       ((c = "sequence_id" ∨ c = "sequence_name") ∧ c ∈ column_names ds) ∨
       c = "sequence_first_terms" ∨ c = "sequence_next_term" ∨
       (c = "is_easy" ∧ "keywords" ∈ column_names ds).
Proof.
  intros Hprep Hseq Hrows c. split.
  - intros Hc.
    destruct (prepare_schema _ _ _ _ Hprep) as (Hnoseq & Hnokw & _).
    destruct (prepare_names _ _ _ _ Hprep c Hc)
      as [[Hin Hreq]%elem_of_selected|[Hsplit|?]]; [| |by auto].
    + left. split; [|done]. unfold required_columns in Hreq.
      repeat (apply elem_of_cons in Hreq as [->|Hreq]; [by auto|]).
      by apply elem_of_nil in Hreq.
    + apply elem_of_cons in Hsplit as [->|Hsplit]; [by auto|].
      apply list_elem_of_singleton in Hsplit as ->. by auto.
  - revert Hprep. unfold prepare.
    intros (ds0 & [Hcol0 _]%select_step_schema &
            (ds1 & H1 & (ds2 & H2 & (ds3 & H3 & (ds4 & H4 & H5
            )%bind_Ok)%bind_Ok)%bind_Ok)%bind_Ok)%bind_Ok.
    pose proof (proj1 (truncate_step_schema _ _ _ H1)) as Hcol1.
    pose proof (proj1 (min_length_step_schema _ _ _ H2)) as Hcol2.
    destruct (split_step_keeps _ _ H3) as (Hlen3 & Hkeep3 & Hnew3).
    destruct (dedup_step_schema _ _ H4) as [Hcol4 _].
    assert (length (rows ds4) ≤ length (rows ds3))%nat as Hlen4.
    { unfold dedup_step, drop_duplicate_sequence_beginnings in H4.
      case_decide; [|by simplify_eq]. case_decide; [by simplify_eq|].
      apply filter_rows_schema in H4 as (_ & Hsub & _).
      by apply sublist_length. }
    destruct (is_easy_step_keeps _ _ H5) as (Hlen5 & Hkeep5 & Hnew5).
    assert (rows ds4 ≠ []) as Hrows4
      by (apply (nonempty_of_length _ (rows out)); [lia|done]).
    assert (rows ds2 ≠ []) as Hrows2
      by (apply (nonempty_of_length _ (rows ds4)); [lia|done]).
    assert (∀ c', c' ∈ column_names ds → c' ∈ required_columns →
                  c' ∈ column_names ds2) as Hsel.
    { intros c' ? ?. rewrite Hcol2. apply Hcol1. rewrite Hcol0.
      by apply elem_of_selected. }
    assert ("sequence" ∈ column_names ds2) as Hseq2.
    { apply Hsel; [done|]. unfold required_columns. set_solver. }
    destruct (Hnew3 Hseq2 Hrows2) as [Hft Hnt].
    intros [[Hc Hin]|[->|[->|[-> Hkw]]]].
    + apply Hkeep5; [|destruct Hc as [-> | ->]; done].
      rewrite Hcol4. apply Hkeep3; [|destruct Hc as [-> | ->]; done].
      apply Hsel; [done|]. unfold required_columns.
      destruct Hc as [-> | ->]; set_solver.
    + apply Hkeep5; [|done]. by rewrite Hcol4.
    + apply Hkeep5; [|done]. by rewrite Hcol4.
    + apply Hnew5; [|done]. rewrite Hcol4. apply Hkeep3; [|done].
      apply Hsel; [done|]. unfold required_columns. set_solver.
Qed.

Lemma schema_of_nonempty_result_witness :
  "is_easy" ∈ column_names example_output ↔
  (("is_easy" = "sequence_id" ∨ "is_easy" = "sequence_name") ∧
   "is_easy" ∈ column_names example_dataset) ∨
  "is_easy" = "sequence_first_terms" ∨ "is_easy" = "sequence_next_term" ∨
  ("is_easy" = "is_easy" ∧ "keywords" ∈ column_names example_dataset).
Proof.
  apply (schema_of_nonempty_result example_dataset example_output 8 8).
  - vm_compute. reflexivity.
  - exact example_has_sequence.
  - discriminate.
Defined.

(* ===================================================================== *)
(** ** Further properties of src/process.py and main.py *)
(* ===================================================================== *)

(** X18. What a run does to its collaborators, for any environment and
    configuration.  It calls the loader first and once.  After that it
    either stops, or calls [mkdir] and stops, or calls [mkdir] and then
    [to_parquet] once, on the result of the preparation of the loaded
    dataset.  An exception reaches the caller only if it was raised by the
    preparation, and then nothing but the loader was called. *)
Theorem process_calls (env : environment) (dataset_name : string)
    (max_seq_len min_seq_len : Z) (output_file_name : string) :
  let run := process_oeis_dataset env dataset_name max_seq_len min_seq_len
               output_file_name in
  (run.2 = [Load dataset_name] ∨
   run.2 = [Load dataset_name; MkdirParent output_file_name] ∨
   ∃ ds out,
     load_step env dataset_name = Ok (Some ds) ∧
     prepare ds max_seq_len min_seq_len = Ok out ∧
     mkdir_parent env output_file_name = Ok () ∧
     run.2 = [Load dataset_name; MkdirParent output_file_name;
              ToParquet out output_file_name]) ∧
  (∀ e, run.1 = Raise e →
        run.2 = [Load dataset_name] ∧
        ∃ ds, load_step env dataset_name = Ok (Some ds) ∧
              prepare ds max_seq_len min_seq_len = Raise e).
Proof.
  cbv zeta. unfold process_oeis_dataset.
  destruct (load_step env dataset_name) as [[ds|]|] eqn:Hload;
    [|split; [by left|done]..].
  destruct (prepare ds max_seq_len min_seq_len) as [out|e'] eqn:Hprep.
  - unfold save_step.
    destruct (mkdir_parent env output_file_name) as [[]|] eqn:Hmk.
    + destruct (to_parquet env out output_file_name) as [[]|];
        (split; [right; right; by exists ds, out|done]).
    + split; [by auto|done].
  - split; [by left|]. intros e [= ->]. split; [done|eauto].
Qed.

Lemma truncate_list_nil (max_el : Z) : truncate_list [] max_el = [].
Proof.
  unfold truncate_list, slice_to.
  destruct (_ >? _); [by rewrite take_nil|done].
Qed.

(** X19. With [min_seq_len <= 0] an empty sequence is not filtered out and
    stops the run: on a dataset of the data model that has a row whose
    sequence is empty, the preparation raises [IndexError], the exception
    reaches the caller of [process_oeis_dataset], and no file is
    written. *)
Theorem empty_sequence_stops_the_run (ds : Dataset)
    (max_seq_len min_seq_len : Z) (r : row) :
  "sequence" ∈ column_names ds → data_model ds → min_seq_len ≤ 0 →
  r ∈ rows ds → r !! "sequence" = Some (VInts []) →
  prepare ds max_seq_len min_seq_len = Raise IndexError ∧
  ∀ env dataset_name output_file_name,
    load_step env dataset_name = Ok (Some ds) →
    process_oeis_dataset env dataset_name max_seq_len min_seq_len
      output_file_name
    = (Raise IndexError, [Load dataset_name]).
Proof.
  intros Hin Hmodel Hmin Hr Hempty.
  assert (prepare ds max_seq_len min_seq_len = Raise IndexError) as Hprep.
  { unfold prepare.
    rewrite (bind_Ok_l _ _ _ (select_step_rows ds)).
    assert ("sequence" ∈ selected (column_names ds)) as Hsel.
    { apply elem_of_selected. split; [done|]. unfold required_columns.
      set_solver. }
    rewrite (selected_rows_some _ _ _ Hsel).
    assert (Forall has_sequence (project (column_names ds) <$> rows ds))
      as Hty.
    { apply Forall_fmap. eapply Forall_impl; [exact Hmodel|].
      intros r0 [Hseq _]. destruct (Hseq Hin) as [seq Hr0]. exists seq.
      rewrite project_lookup. by rewrite decide_True. }
    rewrite (bind_Ok_l _ _ _
               (truncate_step_rows max_seq_len
                  {| column_names := selected (column_names ds);
                     rows := project (column_names ds) <$> rows ds |}
                  Hsel Hty)).
    assert (Forall has_sequence
              (truncate_row max_seq_len <$>
                 (project (column_names ds) <$> rows ds))) as Hty1.
    { apply Forall_fmap, Forall_forall. intros r0 _.
      apply truncate_row_has_sequence. }
    rewrite (bind_Ok_l _ _ _
               (min_length_step_rows min_seq_len
                  {| column_names := selected (column_names ds);
                     rows := truncate_row max_seq_len <$>
                               (project (column_names ds) <$> rows ds) |}
                  Hsel Hty1)).
    rewrite split_step_empty_sequence; [done|done| |].
    - cbn [rows]. eapply Forall_impl;
        [exact (Forall_list_filter _ (long_enough min_seq_len) _ Hty1)|].
      by intros r0 [? _].
    - cbn [rows]. apply Exists_exists.
      exists (truncate_row max_seq_len (project (column_names ds) r)).
      assert (seq_of (truncate_row max_seq_len
                        (project (column_names ds) r)) = []) as Hnil.
      { rewrite truncate_row_seq_of, project_seq_of by done.
        unfold seq_of. rewrite Hempty. apply truncate_list_nil. }
      split; [|done]. apply list_elem_of_filter. split.
      + unfold long_enough. rewrite Hnil. simpl. lia.
      + apply list_elem_of_fmap_2. by apply list_elem_of_fmap_2. }
  split; [done|]. intros env name file Hload.
  unfold process_oeis_dataset. by rewrite Hload, Hprep.
Qed.

(** X20. The program as shipped ([main.py]: [christopher/oeis], maximum
    20, minimum 8): whenever the source fails, or delivers a dataset of
    the data model, the run returns without an exception; and the dataset
    it hands to the writer, if the input has the [sequence] column, has in
    every row a [sequence_first_terms] of 7 to 19 integers and an integer
    [sequence_next_term]. *)
Theorem main_returns (env : environment) :
  (∀ ds, load_step env DATASET_NAME = Ok (Some ds) → data_model ds) →
  (main env).1 = Ok () ∧
  ∀ ds out,
    load_step env DATASET_NAME = Ok (Some ds) →
    "sequence" ∈ column_names ds →
    out ∈ written (main env).2 →
    Forall (λ r : row, ∃ (first_terms : list Z) (next_term : Z),
              r !! "sequence_first_terms" = Some (VInts first_terms) ∧
              r !! "sequence_next_term" = Some (VInt next_term) ∧
              (7 ≤ length first_terms ≤ 19)%nat)
      (rows out).
Proof.
  intros Hmodel. unfold main. split.
  - unfold process_oeis_dataset.
    destruct (load_step env DATASET_NAME) as [[ds|]|] eqn:Hload; [|done..].
    destruct (prepare_completes ds MAX_SEQUENCE_LENGTH MIN_SEQUENCE_LENGTH
                (Hmodel ds eq_refl)) as [out ->]; [done|].
    by destruct (save_step env out OUTPUT_FILE_NAME) as [[[]|] calls].
  - intros ds out Hload Hseq
      (ds' & Hload' & Hprep)%process_written.
    rewrite Hload in Hload'. injection Hload' as <-.
    destruct (prepare_rows_origin ds MAX_SEQUENCE_LENGTH MIN_SEQUENCE_LENGTH
                Hseq (Hmodel ds Hload)) as (out' & Hprep' & Horigin & _);
      [done|].
    rewrite Hprep in Hprep'. injection Hprep' as <-.
    eapply Forall_impl; [exact Horigin|].
    intros r' (r & _ & Hlong & ->).
    set (r1 := truncate_row MAX_SEQUENCE_LENGTH (project (column_names ds) r))
      in *.
    exists (slice_to (seq_of r1) (-1)), (default 0 (last (seq_of r1))).
    rewrite !prepared_row_lookup_split by done. fold r1.
    split_and!; [apply split_row_first_terms|apply split_row_next_term|..].
    + unfold long_enough, MIN_SEQUENCE_LENGTH in Hlong.
      assert (seq_of r1 ≠ []) as Hne
        by (intros Hnil; rewrite Hnil in Hlong; simpl in Hlong; lia).
      pose proof (slice_to_minus_one_length (seq_of r1) Hne). lia.
    + unfold long_enough in Hlong.
      assert (seq_of r1 ≠ []) as Hne
        by (intros Hnil; rewrite Hnil in Hlong; simpl in Hlong;
            unfold MIN_SEQUENCE_LENGTH in Hlong; lia).
      pose proof (slice_to_minus_one_length (seq_of r1) Hne).
      unfold r1 in *. rewrite truncate_row_seq_of in *.
      pose proof (truncate_list_length
                    (seq_of (project (column_names ds) r))
                    MAX_SEQUENCE_LENGTH).
      unfold MAX_SEQUENCE_LENGTH in *. lia.
Qed.

(** X21. The batched functions are compatible with batching: on a batch
    whose [sequence] column is the concatenation of two columns, each of
    [truncate_sequence], [filter_by_min_length] and [extract_next_term]
    returns what it returns on the first followed by what it returns on
    the second, and raises if it raises on either (the first error in
    order). *)
Theorem batches_append (b b1 b2 : batch) (seqs1 seqs2 : list value)
    (max_el n_el : Z) :
  b1 !! "sequence" = Some seqs1 → b2 !! "sequence" = Some seqs2 →
  b !! "sequence" = Some (seqs1 ++ seqs2) →
  truncate_sequence b max_el
  = (out1 ← truncate_sequence b1 max_el;
     out2 ← truncate_sequence b2 max_el;
     Ok (append_columns out1 out2)) ∧
  filter_by_min_length b n_el
  = (mask1 ← filter_by_min_length b1 n_el;
     mask2 ← filter_by_min_length b2 n_el;
     Ok (mask1 ++ mask2)) ∧
  extract_next_term b
  = (out1 ← extract_next_term b1;
     out2 ← extract_next_term b2;
     Ok (append_columns out1 out2)).
Proof.
  intros H1 H2 H12. split_and!.
  - by apply (truncate_sequence_batches b b1 b2 seqs1 seqs2).
  - by apply (filter_by_min_length_batches b b1 b2 seqs1 seqs2).
  - by apply (extract_next_term_batches b b1 b2 seqs1 seqs2).
Qed.

(** X22. Columns other than [sequence_id], [sequence_name], [sequence] and
    [keywords] never influence the result: preparing a dataset and
    preparing its selection give the same outcome, errors included. *)
Theorem unrequired_columns_are_ignored (ds ds' : Dataset)
    (max_seq_len min_seq_len : Z) :
  select_step ds = Ok ds' →
  prepare ds' max_seq_len min_seq_len = prepare ds max_seq_len min_seq_len.
Proof.
  intros Hsel. unfold prepare. rewrite Hsel.
  assert (select_step ds' = Ok ds') as ->; [|done].
  rewrite select_step_rows in Hsel. injection Hsel as <-.
  rewrite select_step_rows. cbn [column_names rows].
  by rewrite selected_idempotent, selected_rows_idempotent.
Qed.

(* ===================================================================== *)
(** ** The further properties at concrete inputs *)
(* ===================================================================== *)

Lemma example_split_has_first_terms :
  "sequence_first_terms" ∈ column_names example_split.
Proof. apply (bool_decide_unpack _). vm_compute. exact I. Defined.

Lemma example_split_typed :
  Forall (λ r : row, ∃ l : list Z,
            r !! "sequence_first_terms" = Some (VInts l))
    (rows example_split).
Proof.
  simpl.
  repeat (apply Forall_cons; split; [eexists; vm_compute; reflexivity|]).
  apply Forall_nil. exact I.
Defined.

Lemma drop_duplicates_idempotent_witness :
  ∃ ds', drop_duplicate_sequence_beginnings example_split = Ok ds' ∧
         drop_duplicate_sequence_beginnings ds' = Ok ds'.
Proof.
  apply (drop_duplicates_idempotent example_split).
  - exact example_split_has_first_terms.
  - exact example_split_typed.
Defined.

Lemma drop_duplicates_distinct_witness :
  NoDup (first_terms_of <$> rows distinct_first_terms) ∧
  drop_duplicate_sequence_beginnings distinct_first_terms
  = Ok distinct_first_terms.
Proof.
  assert (NoDup (first_terms_of <$> rows distinct_first_terms)) as Hnd.
  { apply (bool_decide_unpack _). vm_compute. exact I. }
  split; [exact Hnd|].
  apply (drop_duplicates_distinct distinct_first_terms).
  - apply (bool_decide_unpack _). vm_compute. exact I.
  - simpl.
    repeat (apply Forall_cons; split; [eexists; vm_compute; reflexivity|]).
    apply Forall_nil. exact I.
  - exact Hnd.
Defined.



Lemma prepared_flag_and_metadata_witness :
  ∃ out, prepare example_dataset 8 8 = Ok out ∧
    Forall (λ r' : row, ∃ r : row,
              r ∈ rows example_dataset ∧
              ("keywords" ∈ column_names example_dataset →
               ∃ kws : list string,
                 r !! "keywords" = Some (VStrs kws) ∧
                 r' !! "is_easy"
                 = Some (VInt (if bool_decide ("easy" ∈ kws)
                               then 1 else 0))) ∧
              ("keywords" ∉ column_names example_dataset →
               r' !! "is_easy" = None) ∧
              (∀ c, c = "sequence_id" ∨ c = "sequence_name" →
                    r' !! c = if decide (c ∈ column_names example_dataset)
                              then r !! c else None))
      (rows out).
Proof.
  apply (prepared_flag_and_metadata example_dataset 8 8).
  - exact example_data_model.
  - lia.
Defined.

Lemma prepared_first_terms_distinct_witness :
  ∃ out, prepare example_dataset 8 8 = Ok out ∧
    NoDup ((λ r : row, r !! "sequence_first_terms") <$> rows out).
Proof.
  apply (prepared_first_terms_distinct example_dataset 8 8).
  - exact example_has_sequence.
  - exact example_data_model.
  - lia.
Defined.

Lemma prepared_empty_when_max_below_min_witness :
  ∃ out, prepare example_dataset 5 8 = Ok out ∧ rows out = [].
Proof.
  apply (prepared_empty_when_max_below_min example_dataset 5 8).
  - exact example_has_sequence.
  - exact example_data_model.
  - lia.
  - lia.
Defined.

Lemma process_calls_witness :
  (process_oeis_dataset empty_sequence_env "christopher/oeis" 20 0
     "oeis_benchmark.parquet").2 = [Load "christopher/oeis"] ∧
  ∃ ds, load_step empty_sequence_env "christopher/oeis" = Ok (Some ds) ∧
        prepare ds 20 0 = Raise IndexError.
Proof.
  apply (proj2 (process_calls empty_sequence_env "christopher/oeis" 20 0
                  "oeis_benchmark.parquet") IndexError).
  vm_compute. reflexivity.
Defined.

Lemma empty_sequence_data_model : data_model empty_sequence_dataset.
Proof.
  unfold data_model. simpl.
  repeat (apply Forall_cons; split;
          [split; [intros _; eexists; vm_compute; reflexivity|]|]).
  - intros Hkw. exfalso. revert Hkw. apply (bool_decide_unpack _).
    vm_compute. exact I.
  - intros Hkw. exfalso. revert Hkw. apply (bool_decide_unpack _).
    vm_compute. exact I.
  - apply Forall_nil. exact I.
Defined.

Lemma empty_sequence_stops_the_run_witness :
  prepare empty_sequence_dataset 20 0 = Raise IndexError.
Proof.
  apply (proj1 (empty_sequence_stops_the_run empty_sequence_dataset 20 0
                  {[ "sequence" := VInts [] ]}
                  ltac:(apply (bool_decide_unpack _); vm_compute; exact I)
                  empty_sequence_data_model ltac:(lia)
                  ltac:(apply (bool_decide_unpack _); vm_compute; exact I)
                  ltac:(vm_compute; reflexivity))).
Defined.

Lemma main_returns_witness :
  (main example_env).1 = Ok () ∧
  ∀ ds out,
    load_step example_env DATASET_NAME = Ok (Some ds) →
    "sequence" ∈ column_names ds →
    out ∈ written (main example_env).2 →
    Forall (λ r : row, ∃ (first_terms : list Z) (next_term : Z),
              r !! "sequence_first_terms" = Some (VInts first_terms) ∧
              r !! "sequence_next_term" = Some (VInt next_term) ∧
              (7 ≤ length first_terms ≤ 19)%nat)
      (rows out).
Proof.
  apply (main_returns example_env
           (λ ds Hload,
              eq_rect example_dataset data_model example_data_model
                ds (f_equal (λ o, match o with
                                  | Ok (Some d) => d
                                  | _ => example_dataset end)
                      Hload))).
Defined.

Lemma batches_append_witness :
  truncate_sequence example_batch 2
  = (out1 ← truncate_sequence {[ "sequence" := [VInts [1; 2; 3]] ]} 2;
     out2 ← truncate_sequence
              {[ "sequence" := [VInts [4]; VInts [5; 6]] ]} 2;
     Ok (append_columns out1 out2)).
Proof.
  apply (batches_append example_batch
           {[ "sequence" := [VInts [1; 2; 3]] ]}
           {[ "sequence" := [VInts [4]; VInts [5; 6]] ]}
           [VInts [1; 2; 3]] [VInts [4]; VInts [5; 6]] 2 0);
    vm_compute; reflexivity.
Defined.

Lemma unrequired_columns_are_ignored_witness :
  prepare {| column_names := ["sequence_id"; "sequence"; "keywords"];
             rows := project (column_names wide_dataset)
                       <$> rows wide_dataset |} 20 8
  = prepare wide_dataset 20 8.
Proof.
  apply (unrequired_columns_are_ignored wide_dataset).
  vm_compute. reflexivity.
Defined.
